(** * BobCast job watcher (monitor.py): model and verified properties

    A shallow embedding of [monitor.py].  Python [str] values are byte
    strings holding UTF-8 text; a Python [dict] is an association list in
    insertion order with pairwise distinct keys; the libraries the script
    calls ([json], [bs4], [re], [requests], [random]) are interfaces whose
    operations the script's functions are written against. *)

From Stdlib Require Import List String Ascii Bool Arith ZArith DecimalString Lia.
From Stdlib Require DecimalFacts DecimalPos.
Import ListNotations.
Open Scope string_scope.

(* ================================================================== *)
(** * Python dictionaries *)

(** A [dict] keeps its items in insertion order.  Assigning to a key that
    is present replaces the value where the key stands; assigning to a new
    key adds the item at the end. *)
Module Dict.
Section WithValue.
Context {V : Type}.

Definition dict : Type := list (string * V).

(** [d.get(k)] *)
Fixpoint get (d : dict) (k : string) : option V :=
  match d with
  | [] => None
  | (k', v) :: d' => if String.eqb k' k then Some v else get d' k
  end.

(** [d.get(k, default)] *)
Definition get_default (d : dict) (k : string) (default : V) : V :=
  match get d k with
  | Some v => v
  | None => default
  end.

(** [k in d] *)
Definition mem (d : dict) (k : string) : bool :=
  match get d k with
  | Some _ => true
  | None => false
  end.

(** [d[k] = v] *)
Fixpoint set (d : dict) (k : string) (v : V) : dict :=
  match d with
  | [] => [(k, v)]
  | (k', v') :: d' =>
      if String.eqb k' k then (k', v) :: d' else (k', v') :: set d' k v
  end.

(** [d.update(other)]: assigns the items of [other] in their order. *)
Definition update (d other : dict) : dict :=
  fold_left (fun acc kv => set acc (fst kv) (snd kv)) other d.

(** [dict(d)]: a copy with the same items in the same order. *)
Definition copy (d : dict) : dict := d.

(** [d.items()] *)
Definition items (d : dict) : list (string * V) := d.

Definition keys (d : dict) : list string := map fst d.

(** The invariant of every Python dict: no key occurs twice. *)
Definition wf (d : dict) : Prop := NoDup (keys d).
End WithValue.
Arguments dict V : clear implicits.
End Dict.

Abbreviation dict := Dict.dict.

(* ================================================================== *)
(** * Job registry *)

(** [JOB_MAP]: only these job codes are reported. *)
Definition JOB_MAP : dict string :=
  [ ("220", "Templar");
    ("224", "Master Breeder");
    ("221", "Mercenary");
    ("223", "Oracle");
    ("222", "Cardinal");
    ("120", "Berserker");
    ("121", "Marksman");
    ("124", "Beast Master");
    ("123", "War Kahuna");
    ("122", "Magus");
    ("324", "Overlord");
    ("320", "Slayer");
    ("321", "Deadeye");
    ("322", "Void Mage");
    ("323", "Corruptor") ].

(** Truth value of a [str]: the empty string is false. *)
Definition str_truthy (s : string) : bool := negb (String.eqb s "").

(* ================================================================== *)
(** * Job code of an icon path: [JOB_CODE_RE = /(\d{3})\.jpg] *)

(** What the [re] module knows of Unicode: [decimal_digit s] splits the
    first character off [s] when [\d] accepts it, that is when it is a
    decimal digit of some script. *)
Class Unicode : Type := {
  decimal_digit : string -> option (string * string)
}.

Fixpoint starts_with (p s : string) : bool :=
  match p, s with
  | EmptyString, _ => true
  | String a p', String b s' => Ascii.eqb a b && starts_with p' s'
  | String _ _, EmptyString => false
  end.

Section Pattern.
Context {U : Unicode}.

(** The pattern anchored at the head of [s]; the result is group 1. *)
Definition match_job_code_here (s : string) : option string :=
  match s with
  | String c0 s1 =>
      if Ascii.eqb c0 "/" then
        match decimal_digit s1 with
        | Some (d1, s2) =>
            match decimal_digit s2 with
            | Some (d2, s3) =>
                match decimal_digit s3 with
                | Some (d3, s4) =>
                    if starts_with ".jpg" s4 then Some (d1 ++ d2 ++ d3) else None
                | None => None
                end
            | None => None
            end
        | None => None
        end
      else None
  | EmptyString => None
  end.

(** [JOB_CODE_RE.search(src)]: the leftmost position where the pattern
    matches. *)
Fixpoint JOB_CODE_RE_search (src : string) : option string :=
  match match_job_code_here src with
  | Some code => Some code
  | None =>
      match src with
      | EmptyString => None
      | String _ src' => JOB_CODE_RE_search src'
      end
  end.

Definition extract_job_code_from_img_src (src : string) : option string :=
  match JOB_CODE_RE_search src with
  | None => None
  | Some g1 => Some g1
  end.
End Pattern.

(* ================================================================== *)
(** * Merging rosters and building the message *)

(** [merge_dicts]: [b] has priority on conflicts. *)
Definition merge_dicts (a b : dict string) : dict string :=
  let out := Dict.copy a in
  Dict.update out b.

Definition build_message (quote player old_code new_code : string) : string :=
  let old_name := Dict.get_default JOB_MAP old_code old_code in
  let new_name := Dict.get_default JOB_MAP new_code new_code in
  let prefix := if str_truthy quote then quote ++ " " else "" in
  prefix ++ player ++ " rebirthed from " ++ old_name ++ " to " ++ new_name ++ ".".

(* ================================================================== *)
(** * Table extraction *)

(** The operations of [bs4] the script uses.  [tag] stands for a parsed
    document or one of its elements. *)
Class Bs4 : Type := {
  tag : Type;
  (** [BeautifulSoup(html, "html.parser")] *)
  BeautifulSoup : string -> tag;
  (** [t.find_all(name)]: the descendants called [name], in document order *)
  find_all : tag -> string -> list tag;
  (** [t.find(name)]: the first such descendant, or [None] *)
  find : tag -> string -> option tag;
  (** [t.get_text(strip=True)] *)
  get_text_strip : tag -> string;
  (** [t.get(attr)] *)
  get_attr : tag -> string -> option string
}.

Section Extract.
Context {U : Unicode} {B : Bs4}.

(** [t.get(attr, default)] *)
Definition get_attr_default (t : tag) (attr default : string) : string :=
  match get_attr t attr with
  | Some v => v
  | None => default
  end.

(** One pass of the row loop of [parse_online]; [continue] leaves
    [current] as it is. *)
Definition parse_online_row (current : dict string) (tr : tag) : dict string :=
  let tds := find_all tr "td" in
  if Nat.ltb (List.length tds) 3 then current else
  match nth_error tds 0, nth_error tds 2 with
  | Some td0, Some td2 =>
      let name := get_text_strip td0 in
      match find td2 "img" with
      | None => current
      | Some job_img =>
          match extract_job_code_from_img_src (get_attr_default job_img "src" "") with
          | Some code =>
              if str_truthy code && Dict.mem JOB_MAP code
              then Dict.set current name code
              else current
          | None => current
          end
      end
  | _, _ => current
  end.

(** The rows the two loops visit: for each [tbody], each of its [tr]. *)
Definition table_rows (soup : tag) : list tag :=
  flat_map (fun tbody => find_all tbody "tr") (find_all soup "tbody").

(** Reads the table of the start page: name in [tds[0]], job image in
    [tds[2]]. *)
Definition parse_online (html : string) : dict string :=
  let soup := BeautifulSoup html in
  fold_left parse_online_row (table_rows soup) [].

Definition parse_ranking_row (current : dict string) (tr : tag) : dict string :=
  let tds := find_all tr "td" in
  if Nat.ltb (List.length tds) 4 then current else
  match nth_error tds 1, nth_error tds 3 with
  | Some td1, Some td3 =>
      let name := get_text_strip td1 in
      match find td3 "img" with
      | None => current
      | Some job_img =>
          match extract_job_code_from_img_src (get_attr_default job_img "src" "") with
          | Some code =>
              if str_truthy code && Dict.mem JOB_MAP code
              then Dict.set current name code
              else current
          | None => current
          end
      end
  | _, _ => current
  end.

(** Reads the top 100: name in [tds[1]], job image in [tds[3]]. *)
Definition parse_ranking (html : string) : dict string :=
  let soup := BeautifulSoup html in
  fold_left parse_ranking_row (table_rows soup) [].
End Extract.

(* ================================================================== *)
(** * Values of the state file *)

(** What [json.loads] can return.  A [float] is held by its [repr], the
    shortest decimal text that reads back as the same float. *)
#[warnings="-register-all"]
Inductive json : Type :=
| JNull
| JBool (b : bool)
| JInt (n : Z)
| JFloat (repr : string)
| JStr (s : string)
| JArr (l : list json)
| JObj (d : list (string * json)).

(** Truth value of an object, as [if old_code] tests it. *)
Definition truthy (v : json) : bool :=
  match v with
  | JNull => false
  | JBool b => b
  | JInt n => negb (Z.eqb n 0)
  | JFloat repr => negb (String.eqb repr "0.0" || String.eqb repr "-0.0")
  | JStr s => str_truthy s
  | JArr l => match l with [] => false | _ :: _ => true end
  | JObj d => match d with [] => false | _ :: _ => true end
  end.

(** [v != s] for a [str] [s]: only an equal [str] is equal to it. *)
Definition ne_str (v : json) (s : string) : bool :=
  match v with
  | JStr t => negb (String.eqb t s)
  | _ => true
  end.

(** Lists and dicts cannot be hashed: looking them up in a dict raises. *)
Definition hashable (v : json) : bool :=
  match v with
  | JArr _ | JObj _ => false
  | _ => true
  end.

(** The values of a roster, as objects. *)
Definition str_values (d : dict string) : dict json :=
  map (fun kv => (fst kv, JStr (snd kv))) d.

(** [json.loads] on the text of the state file ([None]: it raises) and
    [json.dumps(state, indent=2, ensure_ascii=False)]. *)
Class JsonLib : Type := {
  json_loads : string -> option json;
  json_dumps : json -> string
}.

(* ================================================================== *)
(** * Effects: the state file, what the run sends out, exceptions *)

Inductive exn : Type :=
| HTTPError          (* [http_get]: transport failure or [raise_for_status] *)
| RequestException   (* [requests.post] got no response *)
| AttributeError     (* [.get] on a loaded value that is no dict *)
| TypeError.         (* an unhashable value looked up in [JOB_MAP] *)

Inductive result (A : Type) : Type :=
| Ok (a : A)
| Raise (e : exn).
Arguments Ok {A} a.
Arguments Raise {A} e.

Inductive event : Type :=
| Stdout (msg : string)                  (* [print(msg)] of a dry run *)
| WebhookPost (url content : string)     (* the POST of [{"content": content}] *)
| StderrNoWebhook                        (* no [DISCORD_WEBHOOK_URL] set *)
| StderrWebhookError.                    (* the webhook answered with an error *)

Record world : Type := mkWorld {
  state_file : option string;   (* text of [data/state.json], if it exists *)
  sent : list event;            (* what the run has put out, oldest first *)
  quote_calls : nat             (* calls of [get_random_quote] so far *)
}.

(** What lies outside the process during one run. *)
Class Outside : Type := {
  (** [requests.get(url)] and [raise_for_status]: the page text, or failure *)
  http_response : string -> option string;
  (** [requests.post(url, json={"content": c})]: [None] when the call
      raises, else whether the status is a success *)
  post_response : string -> string -> option bool;
  (** what [get_random_quote] returns at its n-th call *)
  random_quote : nat -> string;
  (** [os.environ.get("DISCORD_WEBHOOK_URL", "")] *)
  DISCORD_WEBHOOK_URL : string
}.

Definition M (A : Type) : Type := world -> result A * world.

Definition ret {A} (a : A) : M A := fun w => (Ok a, w).

Definition raise {A} (e : exn) : M A := fun w => (Raise e, w).

Definition bind {A B} (m : M A) (k : A -> M B) : M B :=
  fun w =>
    match m w with
    | (Ok a, w') => k a w'
    | (Raise e, w') => (Raise e, w')
    end.

Notation "x <- m ;; k" := (bind m (fun x => k))
  (at level 61, m at next level, right associativity).
Notation "m ;;; k" := (bind m (fun _ => k))
  (at level 61, right associativity).

Definition lift {A} (r : result A) : M A := fun w => (r, w).

(** A [for] loop whose body has effects. *)
Fixpoint for_each {A} (l : list A) (body : A -> M unit) : M unit :=
  match l with
  | [] => ret tt
  | x :: l' => body x ;;; for_each l' body
  end.

Definition emit (e : event) : M unit :=
  fun w => (Ok tt, mkWorld (state_file w) (sent w ++ [e])%list (quote_calls w)).

Definition write_state_file (text : string) : M unit :=
  fun w => (Ok tt, mkWorld (Some text) (sent w) (quote_calls w)).

Definition ONLINE_URL : string := "https://pr-underworld.com/website/".
Definition RANKING_URL : string := "https://pr-underworld.com/website/ranking/".

(* ================================================================== *)
(** * The script *)

(** A job change: [(name, old_code, new_code)]. *)
Definition change : Type := string * string * string.

(** [x in (a, b)] for strings. *)
Definition str_in (x : string) (l : list string) : bool :=
  existsb (String.eqb x) l.

(** [state.get(key, default)]; a loaded value that is no dict has no [get]. *)
Definition state_get (state : json) (key : string) (default : json) : result json :=
  match state with
  | JObj d => Ok (Dict.get_default d key default)
  | _ => Raise AttributeError
  end.

(** [state[key] = v] *)
Definition state_setitem (state : json) (key : string) (v : json) : result json :=
  match state with
  | JObj d => Ok (JObj (Dict.set d key v))
  | _ => Raise TypeError
  end.

(** [before = state.get("players", {})], replaced by [{}] when it is no
    dict. *)
Definition players_before (state : json) : result (dict json) :=
  match state_get state "players" (JObj []) with
  | Ok (JObj before) => Ok before
  | Ok _ => Ok []
  | Raise e => Raise e
  end.

(** The body of the loop that finds the job changes. *)
Definition find_change (before : dict json) (name new_code : string)
    (changes : list change) : result (list change) :=
  match Dict.get before name with
  | None => Ok changes
  | Some old_code =>
      if truthy old_code && ne_str old_code new_code then
        if negb (hashable old_code) then Raise TypeError
        else
          match old_code with
          | JStr old =>
              if Dict.mem JOB_MAP old && Dict.mem JOB_MAP new_code
              then Ok (changes ++ [(name, old, new_code)])%list
              else Ok changes
          | _ => Ok changes   (* hashable and no [str]: not a key of [JOB_MAP] *)
          end
      else Ok changes
  end.

(** [for name, new_code in current_total.items(): ...] *)
Fixpoint find_changes_from (before : dict json) (items : list (string * string))
    (changes : list change) : result (list change) :=
  match items with
  | [] => Ok changes
  | (name, new_code) :: rest =>
      match find_change before name new_code changes with
      | Ok changes' => find_changes_from before rest changes'
      | Raise e => Raise e
      end
  end.

Definition find_changes (before : dict json) (current_total : dict string)
    : result (list change) :=
  find_changes_from before (Dict.items current_total) [].

(** The players of the new state: [after = dict(before)] then
    [after.update(current_total)]. *)
Definition reconcile (before : dict json) (current_total : dict string) : dict json :=
  let after := Dict.copy before in
  Dict.update after (str_values current_total).

Section Script.
Context {U : Unicode} {B : Bs4} {J : JsonLib} {O : Outside}.

(** Creates the state file with the text [{}] when there is none (the
    directory [data] is taken to be there or creatable). *)
Definition ensure_state : M unit :=
  fun w =>
    match state_file w with
    | Some _ => (Ok tt, w)
    | None => write_state_file "{}" w
    end.

(** [try: return json.loads(read_text) except Exception: return {}] *)
Definition load_state : M json :=
  ensure_state ;;;
  (fun w =>
     match state_file w with
     | Some text =>
         match json_loads text with
         | Some state => (Ok state, w)
         | None => (Ok (JObj []), w)
         end
     | None => (Ok (JObj []), w)
     end).

Definition save_state (state : json) : M unit :=
  write_state_file (json_dumps state).

(** A line of the quotes file or the empty string; which one is up to
    the file and the random generator. *)
Definition get_random_quote : M string :=
  fun w =>
    (Ok (random_quote (quote_calls w)),
     mkWorld (state_file w) (sent w) (S (quote_calls w))).

Definition http_get (url : string) : M string :=
  match http_response url with
  | Some text => ret text
  | None => raise HTTPError
  end.

Definition post_discord (webhook_url content : string) : M unit :=
  if negb (str_truthy webhook_url) then emit StderrNoWebhook
  else
    match post_response webhook_url content with
    | None => raise RequestException
    | Some ok =>
        emit (WebhookPost webhook_url content) ;;;
        if ok then ret tt else emit StderrWebhookError
    end.

(** The fetching part of [run]: [current_total] after the two [if]s. *)
Definition fetch_current_total (source : string) : M (dict string) :=
  let current_total : dict string := [] in
  current_total <-
    (if str_in source ["online"; "both"]
     then html <- http_get ONLINE_URL ;;
          ret (merge_dicts current_total (parse_online html))
     else ret current_total) ;;
  if str_in source ["ranking"; "both"]
  then html <- http_get RANKING_URL ;;
       ret (merge_dicts current_total (parse_ranking html))
  else ret current_total.

(** The posting part of [run] (the pause after each message has no
    counterpart here). *)
Definition post_changes (webhook_url : string) (dry_run : bool)
    (changes : list change) : M unit :=
  for_each changes
    (fun c =>
       let '(name, old_code, new_code) := c in
       quote <- get_random_quote ;;
       let msg := build_message quote name old_code new_code in
       if dry_run then emit (Stdout msg) else post_discord webhook_url msg).

Definition run (source : string) (dry_run : bool) : M unit :=
  let webhook_url := DISCORD_WEBHOOK_URL in
  state <- load_state ;;
  before <- lift (players_before state) ;;
  current_total <- fetch_current_total source ;;
  changes <- lift (find_changes before current_total) ;;
  post_changes webhook_url dry_run changes ;;;
  let after := reconcile before current_total in
  state <- lift (state_setitem state "players" (JObj after)) ;;
  state <- lift (state_setitem state "last_run_source" (JStr source)) ;;
  save_state state.
End Script.

(* ================================================================== *)
(** * Notions the properties are stated with *)

(** Membership in the job registry. *)
Definition registered (code : string) : Prop := Dict.mem JOB_MAP code = true.

(** Display name of a code: its registry entry, else the code itself. *)
Definition display_name (code : string) : string :=
  match Dict.get JOB_MAP code with
  | Some name => name
  | None => code
  end.

(** Whether an item of the current roster is a job change against the
    prior roster. *)
Definition is_change (before : dict string) (item : string * string) : bool :=
  match Dict.get before (fst item) with
  | Some old =>
      negb (String.eqb old (snd item))
      && Dict.mem JOB_MAP old && Dict.mem JOB_MAP (snd item)
  | None => false
  end.

(** The change an item of the current roster stands for, if any. *)
Definition changes_of (before : dict string) (item : string * string) : list change :=
  match Dict.get before (fst item) with
  | Some old => if is_change before item then [(fst item, old, snd item)] else []
  | None => []
  end.

(** A dict's invariant as a test. *)
Fixpoint distinct (l : list string) : bool :=
  match l with
  | [] => true
  | k :: l' => negb (str_in k l') && distinct l'
  end.

(** The two table layouts. *)
Inductive layout : Type := Online | Ranking.

Definition min_cells (l : layout) : nat :=
  match l with Online => 3 | Ranking => 4 end.

Definition icon_index (l : layout) : nat :=
  match l with Online => 2 | Ranking => 3 end.

Section Layouts.
Context {U : Unicode} {B : Bs4}.

Definition parse_row (l : layout) : dict string -> tag -> dict string :=
  match l with Online => parse_online_row | Ranking => parse_ranking_row end.

Definition parse_page (l : layout) : string -> dict string :=
  match l with Online => parse_online | Ranking => parse_ranking end.

(** The four reasons for which a row is passed over. *)
Inductive rejected (l : layout) (tr : tag) : Prop :=
| too_few_cells :
    List.length (find_all tr "td") < min_cells l -> rejected l tr
| no_image (td : tag) :
    nth_error (find_all tr "td") (icon_index l) = Some td ->
    find td "img" = None -> rejected l tr
| no_match (td img : tag) :
    nth_error (find_all tr "td") (icon_index l) = Some td ->
    find td "img" = Some img ->
    JOB_CODE_RE_search (get_attr_default img "src" "") = None -> rejected l tr
| not_registered (td img : tag) (code : string) :
    nth_error (find_all tr "td") (icon_index l) = Some td ->
    find td "img" = Some img ->
    JOB_CODE_RE_search (get_attr_default img "src" "") = Some code ->
    Dict.mem JOB_MAP code = false -> rejected l tr.
End Layouts.

(** Text of the state file once [ensure_state] has run. *)
Definition state_text (w : world) : string :=
  match state_file w with
  | Some text => text
  | None => "{}"
  end.

(** The world that [ensure_state] leaves. *)
Definition ensured (w : world) : world :=
  mkWorld (Some (state_text w)) (sent w) (quote_calls w).

(** The state a run saves: the loaded one with its two keys assigned. *)
Definition saved_state (loaded after : dict json) (source : string) : dict json :=
  Dict.set (Dict.set loaded "players" (JObj after)) "last_run_source" (JStr source).

Section Fetching.
Context {O : Outside}.

(** A page the run asks for cannot be fetched. *)
Definition fetch_fails (source : string) : Prop :=
  (str_in source ["online"; "both"] = true /\ http_response ONLINE_URL = None)
  \/ (str_in source ["ranking"; "both"] = true /\ http_response RANKING_URL = None).

(** Every page the run asks for can be fetched. *)
Definition fetch_succeeds (source : string) : Prop :=
  (str_in source ["online"; "both"] = true -> http_response ONLINE_URL <> None)
  /\ (str_in source ["ranking"; "both"] = true -> http_response RANKING_URL <> None).
End Fetching.

(** The message as the specification words it. *)
Definition marker : string := "› ".

Definition spec_message (quote player old_code new_code : string) : string :=
  (if String.eqb quote "" then "" else quote ++ " ")
  ++ marker ++ player ++ " rebirthed from " ++ display_name old_code
  ++ " to " ++ display_name new_code ++ ".".

(* ================================================================== *)
(** * Reference implementations of the interfaces

    Small executable implementations on which the model runs on concrete
    pages and files: markup with well-nested tags and quoted attributes,
    and JSON texts without floats. *)

(** The digits [0] to [9] as the only decimal digits. *)
Definition is_digit (c : ascii) : bool :=
  let n := nat_of_ascii c in Nat.leb 48 n && Nat.leb n 57.

Definition ascii_digits : Unicode := {|
  decimal_digit := fun s =>
    match s with
    | String c s' => if is_digit c then Some (String c EmptyString, s') else None
    | EmptyString => None
    end
|}.

Module Markup.

#[warnings="-register-all"]
Inductive node : Type :=
| Text (s : string)
| Element (name : string) (attrs : dict string) (contents : list node).

Fixpoint descendants (n : node) : list node :=
  match n with
  | Text _ => []
  | Element _ _ cs => flat_map (fun c => c :: descendants c) cs
  end.

Definition named (name : string) (n : node) : bool :=
  match n with
  | Text _ => false
  | Element name' _ _ => String.eqb name' name
  end.

Definition node_find_all (n : node) (name : string) : list node :=
  filter (named name) (descendants n).

Definition node_find (n : node) (name : string) : option node :=
  hd_error (node_find_all n name).

Definition node_get (n : node) (attr : string) : option string :=
  match n with
  | Text _ => None
  | Element _ attrs _ => Dict.get attrs attr
  end.

Definition is_space (c : ascii) : bool :=
  let n := nat_of_ascii c in
  (Nat.leb 9 n && Nat.leb n 13) || (Nat.leb 28 n && Nat.leb n 32).

Fixpoint lstrip (s : string) : string :=
  match s with
  | String c s' => if is_space c then lstrip s' else s
  | EmptyString => EmptyString
  end.

Fixpoint rstrip (s : string) : string :=
  match s with
  | String c s' =>
      match rstrip s' with
      | EmptyString => if is_space c then EmptyString else String c EmptyString
      | r => String c r
      end
  | EmptyString => EmptyString
  end.

Definition strip (s : string) : string := rstrip (lstrip s).

Definition own_text (n : node) : string :=
  match n with
  | Text s => strip s
  | Element _ _ _ => ""
  end.

Definition node_text (n : node) : string :=
  String.concat "" (filter str_truthy (map own_text (n :: descendants n))).

(** ** Reading markup *)

Inductive token : Type :=
| TText (s : string)
| TOpen (name : string) (attrs : dict string)
| TClose (name : string).

(** Splits at the first character that satisfies [stop]. *)
Fixpoint break_at (stop : ascii -> bool) (s : string) : string * string :=
  match s with
  | EmptyString => (EmptyString, EmptyString)
  | String c s' =>
      if stop c then (EmptyString, s)
      else let (a, b) := break_at stop s' in (String c a, b)
  end.

Definition is_quote (c : ascii) : bool := Nat.eqb (nat_of_ascii c) 34.
Definition is_eq (c : ascii) : bool := Ascii.eqb c "=".
Definition ends_name (c : ascii) : bool := is_space c || is_eq c.

(** The attributes [key="value"] of a tag, after its name. *)
Fixpoint read_attrs (fuel : nat) (s : string) (attrs : dict string) : dict string :=
  match fuel with
  | O => attrs
  | S fuel' =>
      match lstrip s with
      | EmptyString => attrs
      | s1 =>
          let (key, s2) := break_at ends_name s1 in
          match s2 with
          | String "=" (String q s3) =>
              if is_quote q then
                let (value, s4) := break_at is_quote s3 in
                read_attrs fuel' (substring 1 (String.length s4) s4)
                  (Dict.set attrs key value)
              else
                let (value, s4) := break_at is_space (String q s3) in
                read_attrs fuel' s4 (Dict.set attrs key value)
          | _ => read_attrs fuel' s2 (Dict.set attrs key "")
          end
      end
  end.

Definition read_tag (body : string) : token :=
  match body with
  | String "/" name => TClose (strip name)
  | _ =>
      let (name, rest) := break_at is_space body in
      TOpen name (read_attrs (String.length rest) rest [])
  end.

Definition is_lt (c : ascii) : bool := Ascii.eqb c "<".
Definition is_gt (c : ascii) : bool := Ascii.eqb c ">".

Fixpoint tokens (fuel : nat) (s : string) : list token :=
  match fuel with
  | O => []
  | S fuel' =>
      match s with
      | EmptyString => []
      | String "<" s' =>
          let (body, rest) := break_at is_gt s' in
          read_tag body :: tokens fuel' (substring 1 (String.length rest) rest)
      | _ =>
          let (text, rest) := break_at is_lt s in
          TText text :: tokens fuel' rest
      end
  end.

(** An open element: its name, attributes and the children read so far,
    newest first. *)
Definition frame : Type := string * dict string * list node.

Definition add_child (n : node) (stack : list frame) (top : list node)
    : list frame * list node :=
  match stack with
  | [] => ([], n :: top)
  | (name, attrs, cs) :: stack' => ((name, attrs, n :: cs) :: stack', top)
  end.

Definition is_open (name : string) (stack : list frame) : bool :=
  existsb (fun f => String.eqb (fst (fst f)) name) stack.

Definition with_child (child : option node) (cs : list node) : list node :=
  match child with
  | Some n => n :: cs
  | None => cs
  end.

(** Closes open elements up to and including the nearest [name]; [child]
    is the element just closed, still to be put into its parent. *)
Fixpoint close_to (name : string) (child : option node) (stack : list frame)
    (top : list node) : list frame * list node :=
  match stack with
  | [] => ([], with_child child top)
  | (name', attrs, cs) :: stack' =>
      let el := Element name' attrs (rev (with_child child cs)) in
      if String.eqb name' name then add_child el stack' top
      else close_to name (Some el) stack' top
  end.

Fixpoint close_all (child : option node) (stack : list frame) (top : list node)
    : list node :=
  match stack with
  | [] => with_child child top
  | (name', attrs, cs) :: stack' =>
      close_all (Some (Element name' attrs (rev (with_child child cs)))) stack' top
  end.

Definition void_elements : list string :=
  ["img"; "br"; "hr"; "input"; "meta"; "link"].

Fixpoint build (ts : list token) (stack : list frame) (top : list node) : list node :=
  match ts with
  | [] => rev (close_all None stack top)
  | TText t :: ts' =>
      let (stack', top') := add_child (Text t) stack top in build ts' stack' top'
  | TOpen name attrs :: ts' =>
      if str_in name void_elements then
        let (stack', top') := add_child (Element name attrs []) stack top in
        build ts' stack' top'
      else build ts' ((name, attrs, []) :: stack) top
  | TClose name :: ts' =>
      if is_open name stack then
        let (stack', top') := close_to name None stack top in build ts' stack' top'
      else build ts' stack top
  end.

Definition parse (html : string) : node :=
  Element "[document]" [] (build (tokens (String.length html) html) [] []).

#[export] Instance bs4 : Bs4 := {
  tag := node;
  BeautifulSoup := parse;
  find_all := node_find_all;
  find := node_find;
  get_text_strip := node_text;
  get_attr := node_get
}.
End Markup.

Module Json.

Definition dquote : string := String (ascii_of_nat 34) EmptyString.
Definition backslash : ascii := ascii_of_nat 92.
Definition newline : string := String (ascii_of_nat 10) EmptyString.

Definition hex_digit (n : nat) : ascii :=
  nth n (list_ascii_of_string "0123456789abcdef") "0"%char.

(** The escapes of [json.dumps] with [ensure_ascii=False]. *)
Definition escape_char (c : ascii) : string :=
  let n := nat_of_ascii c in
  if Nat.eqb n 34 then String backslash dquote
  else if Nat.eqb n 92 then String backslash (String backslash EmptyString)
  else if Nat.eqb n 10 then String backslash "n"
  else if Nat.eqb n 13 then String backslash "r"
  else if Nat.eqb n 9 then String backslash "t"
  else if Nat.eqb n 8 then String backslash "b"
  else if Nat.eqb n 12 then String backslash "f"
  else if Nat.ltb n 32 then
    String backslash
      ("u00" ++ String (hex_digit (n / 16)) (String (hex_digit (n mod 16)) EmptyString))
  else String c EmptyString.

Fixpoint escape (s : string) : string :=
  match s with
  | EmptyString => EmptyString
  | String c s' => escape_char c ++ escape s'
  end.

Definition encode_str (s : string) : string := dquote ++ escape s ++ dquote.

Fixpoint spaces (n : nat) : string :=
  match n with
  | O => EmptyString
  | S n' => " " ++ spaces n'
  end.

(** A line break and the indentation of nesting [level], for [indent=2]. *)
Definition newline_indent (level : nat) : string := newline ++ spaces (2 * level).

Definition float_literal (repr : string) : string :=
  if String.eqb repr "nan" then "NaN"
  else if String.eqb repr "inf" then "Infinity"
  else if String.eqb repr "-inf" then "-Infinity"
  else repr.

(** The items after the first one, each behind a comma and [sep]. *)
Definition more_items {A : Type} (item : A -> string) (sep : string)
    : list A -> string :=
  fix more (l : list A) : string :=
    match l with
    | [] => EmptyString
    | y :: l' => "," ++ sep ++ item y ++ more l'
    end.

(** One item of a dict: the key, a colon and the value. *)
Definition member_text (dump : json -> string) (kv : string * json) : string :=
  let (k, y) := kv in encode_str k ++ ": " ++ dump y.

Fixpoint dumps_at (level : nat) (v : json) : string :=
  match v with
  | JNull => "null"
  | JBool true => "true"
  | JBool false => "false"
  | JInt n => NilZero.string_of_int (Z.to_int n)
  | JFloat repr => float_literal repr
  | JStr s => encode_str s
  | JArr [] => "[]"
  | JArr (x :: xs) =>
      "[" ++ newline_indent (S level) ++ dumps_at (S level) x
      ++ more_items (dumps_at (S level)) (newline_indent (S level)) xs
      ++ newline_indent level ++ "]"
  | JObj [] => "{}"
  | JObj (kv :: kvs) =>
      "{" ++ newline_indent (S level) ++ member_text (dumps_at (S level)) kv
      ++ more_items (member_text (dumps_at (S level))) (newline_indent (S level)) kvs
      ++ newline_indent level ++ "}"
  end.

Definition dumps (v : json) : string := dumps_at 0 v.

(** ** Reading JSON text *)

Definition is_ws (c : ascii) : bool :=
  let n := nat_of_ascii c in
  Nat.eqb n 32 || Nat.eqb n 9 || Nat.eqb n 10 || Nat.eqb n 13.

Fixpoint skip_ws (s : string) : string :=
  match s with
  | String c s' => if is_ws c then skip_ws s' else s
  | EmptyString => EmptyString
  end.

Definition hex_value (c : ascii) : option N :=
  let n := N_of_ascii c in
  if N.leb 48 n && N.leb n 57 then Some (n - 48)%N
  else if N.leb 97 n && N.leb n 102 then Some (n - 87)%N
  else if N.leb 65 n && N.leb n 70 then Some (n - 55)%N
  else None.

Definition hex4 (a b c d : ascii) : option N :=
  match hex_value a, hex_value b, hex_value c, hex_value d with
  | Some x, Some y, Some z, Some t => Some (((x * 16 + y) * 16 + z) * 16 + t)%N
  | _, _, _, _ => None
  end.

(** UTF-8 bytes of a code point. *)
Definition utf8 (cp : N) : string :=
  let byte (n : N) := String (ascii_of_N n) in
  (if N.ltb cp 128 then byte cp EmptyString
   else if N.ltb cp 2048 then
     byte (192 + cp / 64) (byte (128 + cp mod 64) EmptyString)
   else if N.ltb cp 65536 then
     byte (224 + cp / 4096)
       (byte (128 + (cp / 64) mod 64) (byte (128 + cp mod 64) EmptyString))
   else
     byte (240 + cp / 262144)
       (byte (128 + (cp / 4096) mod 64)
          (byte (128 + (cp / 64) mod 64) (byte (128 + cp mod 64) EmptyString))))%N.

Definition is_high_surrogate (cp : N) : bool := N.leb 55296 cp && N.leb cp 56319.
Definition is_low_surrogate (cp : N) : bool := N.leb 56320 cp && N.leb cp 57343.

(** The code point a pair of surrogates stands for. *)
Definition surrogate_pair (hi lo : N) : N :=
  (65536 + (hi - 55296) * 1024 + (lo - 56320))%N.

Definition unescape (c : ascii) : option ascii :=
  let n := nat_of_ascii c in
  if Nat.eqb n 34 then Some c
  else if Nat.eqb n 92 then Some c
  else if Nat.eqb n 47 then Some c
  else if Ascii.eqb c "n" then Some (ascii_of_nat 10)
  else if Ascii.eqb c "r" then Some (ascii_of_nat 13)
  else if Ascii.eqb c "t" then Some (ascii_of_nat 9)
  else if Ascii.eqb c "b" then Some (ascii_of_nat 8)
  else if Ascii.eqb c "f" then Some (ascii_of_nat 12)
  else None.

Definition prepend (p : string) (r : option (string * string)) : option (string * string) :=
  match r with
  | Some (body, rest) => Some (p ++ body, rest)
  | None => None
  end.

(** The text of a string after its opening quote, up to the closing one.
    A high surrogate followed by a low one is read as one character. *)
Fixpoint read_string (s : string) : option (string * string) :=
  match s with
  | EmptyString => None
  | String c s' =>
      let n := nat_of_ascii c in
      if Nat.eqb n 34 then Some (EmptyString, s')
      else if Nat.eqb n 92 then
        match s' with
        | String "u" (String h1 (String h2 (String h3 (String h4 s'')))) =>
            match hex4 h1 h2 h3 h4 with
            | Some cp =>
                if is_high_surrogate cp then
                  match s'' with
                  | String b (String "u"
                      (String l1 (String l2 (String l3 (String l4 s3))))) =>
                      match hex4 l1 l2 l3 l4 with
                      | Some lo =>
                          if Nat.eqb (nat_of_ascii b) 92 && is_low_surrogate lo
                          then prepend (utf8 (surrogate_pair cp lo)) (read_string s3)
                          else prepend (utf8 cp) (read_string s'')
                      | None => prepend (utf8 cp) (read_string s'')
                      end
                  | _ => prepend (utf8 cp) (read_string s'')
                  end
                else prepend (utf8 cp) (read_string s'')
            | None => None
            end
        | String e s'' =>
            match unescape e with
            | Some c' => prepend (String c' EmptyString) (read_string s'')
            | None => None
            end
        | EmptyString => None
        end
      else if Nat.ltb n 32 then None
      else prepend (String c EmptyString) (read_string s')
  end.

Definition digit_of (c : ascii) : option (Decimal.uint -> Decimal.uint) :=
  match nat_of_ascii c - 48 with
  | 0 => if Nat.eqb (nat_of_ascii c) 48 then Some Decimal.D0 else None
  | 1 => Some Decimal.D1
  | 2 => Some Decimal.D2
  | 3 => Some Decimal.D3
  | 4 => Some Decimal.D4
  | 5 => Some Decimal.D5
  | 6 => Some Decimal.D6
  | 7 => Some Decimal.D7
  | 8 => Some Decimal.D8
  | 9 => Some Decimal.D9
  | _ => None
  end.

(** The longest run of digits at the head of [s]. *)
Fixpoint read_digits (s : string) : Decimal.uint * string :=
  match s with
  | String c s' =>
      match digit_of c with
      | Some digit => let (d, rest) := read_digits s' in (digit d, rest)
      | None => (Decimal.Nil, s)
      end
  | EmptyString => (Decimal.Nil, EmptyString)
  end.

(** A fraction or an exponent makes the number a float. *)
Definition starts_float (s : string) : bool :=
  match s with
  | String c _ => Ascii.eqb c "." || Ascii.eqb c "e" || Ascii.eqb c "E"
  | EmptyString => false
  end.

(** The integer part of a number: [0], or digits that do not start with
    [0]. *)
Definition read_nat (s : string) : option (Z * string) :=
  match s with
  | String c s' =>
      match digit_of c with
      | Some _ =>
          let (d, rest) :=
            if Ascii.eqb c "0" then (Decimal.zero, s') else read_digits s in
          if starts_float rest then None else Some (Z.of_uint d, rest)
      | None => None
      end
  | EmptyString => None
  end.

Definition read_int (s : string) : option (json * string) :=
  match s with
  | String "-" s' =>
      match read_nat s' with
      | Some (n, rest) => Some (JInt (- n), rest)
      | None => None
      end
  | _ =>
      match read_nat s with
      | Some (n, rest) => Some (JInt n, rest)
      | None => None
      end
  end.

(** The text after [word], when the text starts with it. *)
Fixpoint after (word s : string) : option string :=
  match word, s with
  | EmptyString, _ => Some s
  | String a word', String b s' => if Ascii.eqb a b then after word' s' else None
  | String _ _, EmptyString => None
  end.

Definition literal (word : string) (v : json) (s : string) : option (json * string) :=
  match after word s with
  | Some rest => Some (v, rest)
  | None => None
  end.

(** The text after the character [c], when the text starts with it. *)
Definition eat (c : ascii) (s : string) : option string :=
  match s with
  | String c' s' => if Ascii.eqb c' c then Some s' else None
  | EmptyString => None
  end.

(** One value at the head of [s]; the members of an object from a key's
    opening quote on; the elements of an array from an element on. *)
Fixpoint read_value (fuel : nat) (s : string) : option (json * string) :=
  match fuel with
  | O => None
  | S fuel' =>
      match s with
      | String c s' =>
          if Nat.eqb (nat_of_ascii c) 34 then
            match read_string s' with
            | Some (t, rest) => Some (JStr t, rest)
            | None => None
            end
          else if Ascii.eqb c "{" then
            match eat "}" (skip_ws s') with
            | Some rest => Some (JObj [], rest)
            | None => read_members fuel' (skip_ws s') []
            end
          else if Ascii.eqb c "[" then
            match eat "]" (skip_ws s') with
            | Some rest => Some (JArr [], rest)
            | None => read_elements fuel' (skip_ws s') []
            end
          else if Ascii.eqb c "n" then literal "null" JNull s
          else if Ascii.eqb c "t" then literal "true" (JBool true) s
          else if Ascii.eqb c "f" then literal "false" (JBool false) s
          else read_int s
      | EmptyString => None
      end
  end
with read_members (fuel : nat) (s : string) (acc : dict json) : option (json * string) :=
  match fuel with
  | O => None
  | S fuel' =>
      match eat (ascii_of_nat 34) s with
      | Some s1 =>
          match read_string s1 with
          | Some (k, s2) =>
              match eat ":" (skip_ws s2) with
              | Some s3 =>
                  match read_value fuel' (skip_ws s3) with
                  | Some (v, s4) =>
                      let acc' := Dict.set acc k v in
                      match eat "," (skip_ws s4) with
                      | Some s5 => read_members fuel' (skip_ws s5) acc'
                      | None =>
                          match eat "}" (skip_ws s4) with
                          | Some s5 => Some (JObj acc', s5)
                          | None => None
                          end
                      end
                  | None => None
                  end
              | None => None
              end
          | None => None
          end
      | None => None
      end
  end
with read_elements (fuel : nat) (s : string) (acc : list json) : option (json * string) :=
  match fuel with
  | O => None
  | S fuel' =>
      match read_value fuel' s with
      | Some (v, s1) =>
          let acc' := (acc ++ [v])%list in
          match eat "," (skip_ws s1) with
          | Some s2 => read_elements fuel' (skip_ws s2) acc'
          | None =>
              match eat "]" (skip_ws s1) with
              | Some s2 => Some (JArr acc', s2)
              | None => None
              end
          end
      | None => None
      end
  end.

(** The whole text is one value between optional white space. *)
Definition loads (text : string) : option json :=
  match read_value (S (String.length text)) (skip_ws text) with
  | Some (v, rest) =>
      match skip_ws rest with
      | EmptyString => Some v
      | String _ _ => None
      end
  | None => None
  end.

#[export] Instance lib : JsonLib := {
  json_loads := loads;
  json_dumps := dumps
}.

(** The values this codec covers: no floats, and no key twice in a dict. *)
Fixpoint plain (v : json) : bool :=
  match v with
  | JFloat _ => false
  | JArr l => forallb plain l
  | JObj d => distinct (map fst d) && forallb (fun kv => plain (snd kv)) d
  | _ => true
  end.

(** Number of values in [v], counting a list or dict twice. *)
Fixpoint size (v : json) : nat :=
  match v with
  | JArr l => 2 + list_sum (map size l)
  | JObj d => 2 + list_sum (map (fun kv => size (snd kv)) d)
  | _ => 1
  end.

(** What may follow a number in a text: not a digit, [.], [e] or [E]. *)
Definition ends_number (rest : string) : bool :=
  match rest with
  | EmptyString => true
  | String c _ =>
      match digit_of c with
      | Some _ => false
      | None => negb (starts_float rest)
      end
  end.

(** With enough fuel, [v] is read back from its text at the head of a
    longer text. *)
Definition reads_back (v : json) : Prop :=
  forall level fuel rest,
    size v < fuel -> ends_number rest = true ->
    read_value fuel (dumps_at level v ++ rest) = Some (v, rest).

(** The text starts with a character that is no white space and does not
    close a list. *)
Definition solid (s : string) : bool :=
  match s with
  | EmptyString => false
  | String c _ => negb (is_ws c) && negb (Ascii.eqb c "]")
  end.
End Json.

(** A run's surroundings given by the two pages (when they can be
    fetched), the webhook address, and one quote for every call. *)
Definition outside_of (online ranking : option string) (webhook quote : string)
    : Outside := {|
  http_response := fun url =>
    if String.eqb url ONLINE_URL then online
    else if String.eqb url RANKING_URL then ranking
    else None;
  post_response := fun _ _ => Some true;
  random_quote := fun _ => quote;
  DISCORD_WEBHOOK_URL := webhook
|}.

(* ================================================================== *)
(** * Sample pages and surroundings *)

Module Sample.
Import Markup.

(** A start page with one full row and a row for each of the four reasons
    to pass a row over. *)
Definition online_page : string :=
  "<table><tbody>"
  ++ "<tr><td> Alice </td><td>77</td><td><img src=/img/job/220.jpg></td></tr>"
  ++ "<tr><td>Bob</td><td><img src=/img/job/221.jpg></td></tr>"
  ++ "<tr><td>Carol</td><td>12</td><td>none</td></tr>"
  ++ "<tr><td>Dan</td><td>30</td><td><img src=/img/job/mage.png></td></tr>"
  ++ "<tr><td>Eve</td><td>41</td><td><img src=/img/job/999.jpg></td></tr>"
  ++ "</tbody></table>".

Definition cell (contents : list node) : node := Element "td" [] contents.

Definition icon (src : string) : node := Element "img" [("src", src)] [].

Definition alice_row : node :=
  Element "tr" []
    [cell [Text " Alice "]; cell [Text "77"]; cell [icon "/img/job/220.jpg"]].

Definition bob_row : node :=
  Element "tr" [] [cell [Text "Bob"]; cell [icon "/img/job/221.jpg"]].

Definition carol_row : node :=
  Element "tr" [] [cell [Text "Carol"]; cell [Text "12"]; cell [Text "none"]].

Definition dan_row : node :=
  Element "tr" []
    [cell [Text "Dan"]; cell [Text "30"]; cell [icon "/img/job/mage.png"]].

Definition eve_row : node :=
  Element "tr" []
    [cell [Text "Eve"]; cell [Text "41"]; cell [icon "/img/job/999.jpg"]].

(** Nothing can be fetched, no webhook, no quotes. *)
Definition offline : Outside := outside_of None None "" "".

(** The start page can be fetched. *)
Definition online_only : Outside := outside_of (Some online_page) None "" "".

(** No state file, nothing sent yet. *)
Definition fresh : world := mkWorld None [] 0.

(** A state with a key of its own beside the players. *)
Definition noted_state : dict json :=
  [("note", JStr "keep"); ("players", JObj [("Alice", JStr "221")])].

Definition noted : world := mkWorld (Some (Json.dumps (JObj noted_state))) [] 0.

(** The script on the reference implementations. *)
Definition run_in (O : Outside) (source : string) (dry_run : bool) : M unit :=
  run (U := ascii_digits) (B := Markup.bs4) (J := Json.lib) (O := O) source dry_run.

(** A state whose players are a list. *)
Definition listed_state : dict json :=
  [("players", JArr [JStr "Alice"]); ("note", JStr "keep")].

Definition listed : world := mkWorld (Some (Json.dumps (JObj listed_state))) [] 0.
End Sample.

(* ================================================================== *)
(** * Notions for the further properties *)

(** The cell that holds the player's name. *)
Definition name_index (l : layout) : nat :=
  match l with Online => 0 | Ranking => 1 end.

Section Rows.
Context {U : Unicode} {B : Bs4}.

(** The item that a row puts into the roster, if it puts one. *)
Definition row_entry (l : layout) (tr : tag) : option (string * string) :=
  let tds := find_all tr "td" in
  if Nat.ltb (List.length tds) (min_cells l) then None else
  match nth_error tds (name_index l), nth_error tds (icon_index l) with
  | Some name_cell, Some icon_cell =>
      match find icon_cell "img" with
      | Some img =>
          match JOB_CODE_RE_search (get_attr_default img "src" "") with
          | Some code =>
              if Dict.mem JOB_MAP code
              then Some (get_text_strip name_cell, code)
              else None
          | None => None
          end
      | None => None
      end
  | _, _ => None
  end.

(** The items that the rows put in, in the order of the rows. *)
Definition row_entries (l : layout) (rows : list tag) : list (string * string) :=
  flat_map (fun tr => match row_entry l tr with
                      | Some item => [item]
                      | None => []
                      end) rows.

(** Whether a row puts in an item for [name]. *)
Definition names_row (l : layout) (name : string) (tr : tag) : bool :=
  match row_entry l tr with
  | Some (name', _) => String.eqb name' name
  | None => false
  end.
End Rows.

Section DigitLaws.
Context {U : Unicode}.

(** What [decimal_digit] splits off is the head of the text. *)
Definition digits_are_prefixes : Prop :=
  forall s d rest, decimal_digit s = Some (d, rest) -> s = d ++ rest.

(** The digits [0] to [9] are decimal digits. *)
Definition ascii_digits_count : Prop :=
  forall c s, is_digit c = true ->
    decimal_digit (String c s) = Some (String c EmptyString, s).
End DigitLaws.

(** A prior value on which looking for changes raises: a list or a dict
    that is not empty. *)
Definition unhashable_truthy (v : json) : bool :=
  match v with
  | JArr (_ :: _) | JObj (_ :: _) => true
  | _ => false
  end.

(** The change that an item of the current roster stands for against
    prior values of any kind: only a prior [str] gives one. *)
Definition change_from (before : dict json) (item : string * string) : list change :=
  match Dict.get before (fst item) with
  | Some (JStr old) =>
      if negb (String.eqb old (snd item))
         && Dict.mem JOB_MAP old && Dict.mem JOB_MAP (snd item)
      then [(fst item, old, snd item)]
      else []
  | _ => []
  end.

Section Messages.
Context {O : Outside}.

(** The messages of the changes, the first with the quote of call number
    [calls]. *)
Fixpoint messages (calls : nat) (changes : list change) : list string :=
  match changes with
  | [] => []
  | (name, old_code, new_code) :: rest =>
      build_message (random_quote calls) name old_code new_code
      :: messages (S calls) rest
  end.
End Messages.

(** The posts to the webhook among the events, oldest first. *)
Definition webhook_posts (events : list event) : list (string * string) :=
  flat_map (fun e => match e with
                     | WebhookPost url content => [(url, content)]
                     | _ => []
                     end) events.

Section Posting.
Context {O : Outside}.

(** What posting the messages to an answering webhook puts out: the post
    and, after an error status, the line on stderr. *)
Definition post_events (url : string) (msgs : list string) : list event :=
  flat_map (fun msg =>
              match post_response url msg with
              | Some true => [WebhookPost url msg]
              | Some false => [WebhookPost url msg; StderrWebhookError]
              | None => []
              end) msgs.
End Posting.

Module Sample2.

(** The start page can be fetched; the webhook is set and answers with
    the given status. *)
Definition answering (ok : bool) : Outside := {|
  http_response := fun url =>
    if String.eqb url ONLINE_URL then Some Sample.online_page else None;
  post_response := fun _ _ => Some ok;
  random_quote := fun _ => "";
  DISCORD_WEBHOOK_URL := "https://discord.example/hook"
|}.

(** The same, with a webhook that cannot be reached. *)
Definition unreachable : Outside := {|
  http_response := fun url =>
    if String.eqb url ONLINE_URL then Some Sample.online_page else None;
  post_response := fun _ _ => None;
  random_quote := fun _ => "";
  DISCORD_WEBHOOK_URL := "https://discord.example/hook"
|}.

(** Both pages can be fetched; on the second one Alice has another job. *)
Definition ranking_page : string :=
  "<table><tbody>"
  ++ "<tr><td>1</td><td>Alice</td><td>99</td><td><img src=/img/job/221.jpg></td></tr>"
  ++ "<tr><td>2</td><td>Zed</td><td>98</td><td><img src=/img/job/120.jpg></td></tr>"
  ++ "</tbody></table>".

Definition both_pages : Outside :=
  outside_of (Some Sample.online_page) (Some ranking_page) "" "".

(** A start page on which Alice has two rows. *)
Definition twice_page : string :=
  "<table><tbody>"
  ++ "<tr><td> Alice </td><td>77</td><td><img src=/img/job/220.jpg></td></tr>"
  ++ "<tr><td>Alice</td><td>78</td><td><img src=/img/job/221.jpg></td></tr>"
  ++ "</tbody></table>".

Definition alice_again_row : Markup.node :=
  Markup.Element "tr" []
    [Sample.cell [Markup.Text "Alice"]; Sample.cell [Markup.Text "78"];
     Sample.cell [Sample.icon "/img/job/221.jpg"]].

(** A state file that holds a list. *)
Definition list_file : world := mkWorld (Some "[]") [] 0.

(** A state in which Alice's prior value is a list. *)
Definition nested_state : dict json :=
  [("players", JObj [("Alice", JArr [JStr "221"])])].

Definition nested : world := mkWorld (Some (Json.dumps (JObj nested_state))) [] 0.
End Sample2.

(* ================================================================== *)
(** * Facts about dictionaries *)

Section DictFacts.
Context {V : Type}.
Implicit Types (d other : dict V) (k : string) (v : V).

Lemma get_set_same d k v : Dict.get (Dict.set d k v) k = Some v.
Proof.
  induction d as [|[k' v'] d IH]; simpl.
  - now rewrite String.eqb_refl.
  - destruct (String.eqb k' k) eqn:E; simpl; rewrite E; auto.
Qed.

Lemma get_set_other d k k' v :
  k <> k' -> Dict.get (Dict.set d k v) k' = Dict.get d k'.
Proof.
  intros Hne. induction d as [|[k0 v0] d IH]; simpl.
  - destruct (String.eqb k k') eqn:E; auto.
    apply String.eqb_eq in E. contradiction.
  - destruct (String.eqb k0 k) eqn:E; simpl.
    + apply String.eqb_eq in E. subst k0.
      destruct (String.eqb k k') eqn:E'; auto.
      apply String.eqb_eq in E'. contradiction.
    + now rewrite IH.
Qed.

Lemma keys_set d k v k' :
  In k' (Dict.keys (Dict.set d k v)) <-> k' = k \/ In k' (Dict.keys d).
Proof.
  induction d as [|[k0 v0] d IH]; simpl.
  - intuition.
  - destruct (String.eqb k0 k) eqn:E; simpl.
    + apply String.eqb_eq in E. subst k0. intuition.
    + rewrite IH. intuition.
Qed.

Lemma get_None d k : Dict.get d k = None <-> ~ In k (Dict.keys d).
Proof.
  induction d as [|[k0 v0] d IH]; simpl.
  - intuition.
  - destruct (String.eqb k0 k) eqn:E.
    + apply String.eqb_eq in E. subst k0. split; [discriminate | intuition].
    + apply String.eqb_neq in E. rewrite IH. intuition.
Qed.

Lemma get_Some_In d k v : Dict.get d k = Some v -> In (k, v) d.
Proof.
  induction d as [|[k0 v0] d IH]; simpl; [discriminate|].
  destruct (String.eqb k0 k) eqn:E; intros H.
  - apply String.eqb_eq in E. left. congruence.
  - right. auto.
Qed.

Lemma In_get d k v : Dict.wf d -> In (k, v) d -> Dict.get d k = Some v.
Proof.
  unfold Dict.wf.
  induction d as [|[k0 v0] d IH]; simpl; intros Hwf Hin; [contradiction|].
  inversion Hwf as [|? ? Hnotin Hwf']; subst.
  destruct Hin as [Heq | Hin].
  - inversion Heq; subst. now rewrite String.eqb_refl.
  - destruct (String.eqb k0 k) eqn:E; auto.
    apply String.eqb_eq in E. subst k0.
    exfalso. apply Hnotin. change k with (fst (k, v)). now apply in_map.
Qed.

Lemma set_fresh d k v :
  ~ In k (Dict.keys d) -> Dict.set d k v = (d ++ [(k, v)])%list.
Proof.
  induction d as [|[k0 v0] d IH]; simpl; intros Hnotin; auto.
  destruct (String.eqb k0 k) eqn:E.
  - apply String.eqb_eq in E. intuition.
  - rewrite IH; intuition.
Qed.

Lemma keys_set_present d k v :
  In k (Dict.keys d) -> Dict.keys (Dict.set d k v) = Dict.keys d.
Proof.
  induction d as [|[k0 v0] d IH]; simpl; intros Hin; [contradiction|].
  destruct (String.eqb k0 k) eqn:E; simpl; auto.
  apply String.eqb_neq in E. f_equal. apply IH. intuition.
Qed.

Lemma wf_set d k v : Dict.wf d -> Dict.wf (Dict.set d k v).
Proof.
  unfold Dict.wf. intros Hwf.
  destruct (in_dec string_dec k (Dict.keys d)) as [Hin | Hnotin].
  - now rewrite keys_set_present.
  - rewrite set_fresh by assumption. unfold Dict.keys in *.
    rewrite map_app. simpl. apply NoDup_app; auto.
    + repeat constructor. simpl. tauto.
    + simpl. intros x Hx [<- | []]. contradiction.
Qed.

Lemma update_cons d k v other :
  Dict.update d ((k, v) :: other) = Dict.update (Dict.set d k v) other.
Proof. reflexivity. Qed.

Lemma get_update d other k :
  Dict.wf other ->
  Dict.get (Dict.update d other) k =
  match Dict.get other k with
  | Some v => Some v
  | None => Dict.get d k
  end.
Proof.
  unfold Dict.wf. revert d.
  induction other as [|[k0 v0] other IH]; intros d Hwf; [reflexivity|].
  inversion Hwf as [|? ? Hnotin Hwf']; subst.
  rewrite update_cons, IH by assumption. simpl.
  destruct (String.eqb k0 k) eqn:E.
  - apply String.eqb_eq in E. subst k0.
    apply get_None in Hnotin. rewrite Hnotin. apply get_set_same.
  - apply String.eqb_neq in E. now rewrite get_set_other.
Qed.

Lemma keys_update d other k :
  In k (Dict.keys (Dict.update d other)) <->
  In k (Dict.keys d) \/ In k (Dict.keys other).
Proof.
  revert d. induction other as [|[k0 v0] other IH]; intros d.
  - simpl. tauto.
  - rewrite update_cons, IH, keys_set. simpl. intuition.
Qed.

Lemma wf_update d other : Dict.wf d -> Dict.wf (Dict.update d other).
Proof.
  revert d. induction other as [|[k0 v0] other IH]; intros d Hwf; auto.
  rewrite update_cons. apply IH. now apply wf_set.
Qed.

Lemma update_app d other :
  Dict.wf (d ++ other)%list -> Dict.update d other = (d ++ other)%list.
Proof.
  revert d. induction other as [|[k0 v0] other IH]; intros d Hwf.
  - simpl. now rewrite app_nil_r.
  - rewrite update_cons.
    assert (Hfresh : ~ In k0 (Dict.keys d)).
    { unfold Dict.wf, Dict.keys in Hwf. rewrite map_app in Hwf. simpl in Hwf.
      apply NoDup_remove_2 in Hwf. intros Hin. apply Hwf.
      apply in_or_app. now left. }
    rewrite set_fresh by assumption.
    replace (d ++ (k0, v0) :: other)%list with ((d ++ [(k0, v0)]) ++ other)%list in *
      by (now rewrite <- app_assoc).
    now apply IH.
Qed.

Lemma update_empty other : Dict.wf other -> Dict.update [] other = other.
Proof. intros Hwf. now apply (update_app []). Qed.
End DictFacts.

Lemma append_assoc (a b c : string) : (a ++ b) ++ c = a ++ (b ++ c).
Proof. induction a as [|x a IH]; simpl; [reflexivity | now rewrite IH]. Qed.

Lemma str_in_In (x : string) (l : list string) : str_in x l = true <-> In x l.
Proof.
  unfold str_in. rewrite existsb_exists. split.
  - intros [y [Hy E]]. apply String.eqb_eq in E. now subst.
  - intros H. exists x. split; auto. apply String.eqb_refl.
Qed.

Lemma distinct_NoDup (l : list string) : distinct l = true -> NoDup l.
Proof.
  induction l as [|k l IH]; simpl; intros H; constructor.
  - apply andb_prop in H as [H _]. intros Hin.
    apply str_in_In in Hin. rewrite Hin in H. discriminate.
  - apply andb_prop in H as [_ H]. auto.
Qed.

Lemma distinct_wf {V} (d : dict V) : distinct (Dict.keys d) = true -> Dict.wf d.
Proof. apply distinct_NoDup. Qed.

(* ================================================================== *)
(** * Merging (4.2) and reconciliation (4.5) *)

(** C3.  [merge_dicts a b] has exactly the keys of [a] and of [b]; a key
    of [b] (in [a] too or not) has [b]'s value, and a key of [a] alone keeps
    [a]'s value. *)
Theorem merge_dicts_union_right_biased (a b : dict string) :
  Dict.wf b ->
  (forall k, In k (Dict.keys (merge_dicts a b)) <->
             In k (Dict.keys a) \/ In k (Dict.keys b))
  /\ (forall k v, Dict.get b k = Some v -> Dict.get (merge_dicts a b) k = Some v)
  /\ (forall k, Dict.get b k = None ->
                Dict.get (merge_dicts a b) k = Dict.get a k).
Proof.
  intros Hb. unfold merge_dicts, Dict.copy. split; [|split].
  - intros k. apply keys_update.
  - intros k v H. rewrite get_update by assumption. now rewrite H.
  - intros k H. rewrite get_update by assumption. now rewrite H.
Qed.

Lemma merge_dicts_union_right_biased_witness :
  Dict.wf [("Dave", "221")]
  /\ merge_dicts [("Dave", "220"); ("Eve", "120")] [("Dave", "221")]
     = [("Dave", "221"); ("Eve", "120")]
  /\ Dict.get (merge_dicts [("Dave", "220"); ("Eve", "120")] [("Dave", "221")]) "Dave"
     = Some "221".
Proof.
  assert (Hb : Dict.wf [("Dave", "221")]) by (apply distinct_wf; reflexivity).
  split; [exact Hb|]. split; [reflexivity|].
  apply (merge_dicts_union_right_biased
           [("Dave", "220"); ("Eve", "120")] [("Dave", "221")] Hb).
  reflexivity.
Defined.

Lemma merge_dicts_wf (a b : dict string) : Dict.wf a -> Dict.wf (merge_dicts a b).
Proof. apply wf_update. Qed.

Lemma get_str_values (d : dict string) (k : string) :
  Dict.get (str_values d) k = option_map JStr (Dict.get d k).
Proof.
  induction d as [|[k0 v0] d IH]; simpl; auto.
  destruct (String.eqb k0 k); auto.
Qed.

Lemma keys_str_values (d : dict string) : Dict.keys (str_values d) = Dict.keys d.
Proof. unfold Dict.keys, str_values. rewrite map_map. reflexivity. Qed.

Lemma wf_str_values (d : dict string) : Dict.wf d -> Dict.wf (str_values d).
Proof. unfold Dict.wf. now rewrite keys_str_values. Qed.

(** C2.  In the reconciled roster a key of the previous roster that the
    current one lacks keeps its previous value, a key of the current roster
    has its current value, and no key of the previous roster is lost. *)
Theorem reconcile_keeps_and_overlays (before : dict json) (current : dict string) :
  Dict.wf current ->
  (forall k, Dict.get current k = None ->
             Dict.get (reconcile before current) k = Dict.get before k)
  /\ (forall k code, Dict.get current k = Some code ->
                     Dict.get (reconcile before current) k = Some (JStr code))
  /\ (forall k, In k (Dict.keys before) -> In k (Dict.keys (reconcile before current))).
Proof.
  intros Hc. apply wf_str_values in Hc. unfold reconcile, Dict.copy.
  split; [|split].
  - intros k H. rewrite get_update, get_str_values by assumption. now rewrite H.
  - intros k code H. rewrite get_update, get_str_values by assumption. now rewrite H.
  - intros k H. apply keys_update. now left.
Qed.

Lemma reconcile_keeps_and_overlays_witness :
  Dict.wf [("Alice", "221")]
  /\ Dict.get (reconcile [("Alice", JStr "220"); ("Carol", JStr "320")]
                 [("Alice", "221")]) "Carol" = Some (JStr "320").
Proof.
  assert (Hc : Dict.wf [("Alice", "221")]) by (apply distinct_wf; reflexivity).
  split; [exact Hc|].
  destruct (reconcile_keeps_and_overlays
              [("Alice", JStr "220"); ("Carol", JStr "320")] [("Alice", "221")] Hc)
    as [Hkeep _].
  rewrite (Hkeep "Carol"); reflexivity.
Defined.

Lemma reconcile_empty (current : dict string) :
  Dict.wf current -> reconcile [] current = str_values current.
Proof. intros Hc. apply update_empty. now apply wf_str_values. Qed.

(* ================================================================== *)
(** * The message (4.7) *)

Lemma get_default_display (code : string) :
  Dict.get_default JOB_MAP code code = display_name code.
Proof. reflexivity. Qed.

(** C7 as the specification words it fails: the message holds no marker
    before the player's name. *)
Lemma build_message_no_marker :
  build_message "" "Alice" "220" "221" = "Alice rebirthed from Templar to Mercenary."
  /\ build_message "" "Alice" "220" "221" <> spec_message "" "Alice" "220" "221".
Proof. split; [reflexivity | discriminate]. Qed.

(** C7, amended.  The message is the player's name, the words
    [rebirthed from], the old display name, [to], the new display name and
    a full stop, where a display name is the registry's name of the code or
    the code itself; a non-empty decorative text and one space come first. *)
Theorem build_message_format (player old_code new_code : string) :
  build_message "" player old_code new_code
  = player ++ " rebirthed from " ++ display_name old_code
    ++ " to " ++ display_name new_code ++ "."
  /\ forall (c : ascii) (quote : string),
       build_message (String c quote) player old_code new_code
       = String c quote ++ " " ++ player ++ " rebirthed from "
         ++ display_name old_code ++ " to " ++ display_name new_code ++ ".".
Proof.
  split.
  - reflexivity.
  - intros c quote. unfold build_message. rewrite !get_default_display.
    change (str_truthy (String c quote)) with true. cbv iota.
    now rewrite append_assoc.
Qed.

(* ================================================================== *)
(** * Detecting job changes (4.4) *)

Lemma empty_not_registered : Dict.mem JOB_MAP "" = false.
Proof. reflexivity. Qed.

Lemma find_change_roster (before : dict string) (name new_code : string)
    (changes : list change) :
  find_change (str_values before) name new_code changes
  = Ok (changes ++ changes_of before (name, new_code))%list.
Proof.
  unfold find_change, changes_of, is_change. rewrite get_str_values. simpl.
  destruct (Dict.get before name) as [old|]; simpl.
  - unfold str_truthy. destruct (String.eqb old "") eqn:E; simpl.
    + apply String.eqb_eq in E. subst old. rewrite empty_not_registered.
      rewrite andb_false_r. simpl. now rewrite app_nil_r.
    + destruct (String.eqb old new_code); simpl.
      * now rewrite app_nil_r.
      * destruct (Dict.mem JOB_MAP old && Dict.mem JOB_MAP new_code); auto.
        now rewrite app_nil_r.
  - now rewrite app_nil_r.
Qed.

Lemma find_changes_from_roster (before : dict string) (items : list (string * string))
    (changes : list change) :
  find_changes_from (str_values before) items changes
  = Ok (changes ++ flat_map (changes_of before) items)%list.
Proof.
  revert changes. induction items as [|[name new_code] items IH]; intros changes; simpl.
  - now rewrite app_nil_r.
  - rewrite find_change_roster, IH. now rewrite <- app_assoc.
Qed.

Lemma in_changes_of (before : dict string) (item : string * string) (c : change) :
  In c (changes_of before item) <->
  exists old, c = (fst item, old, snd item)
              /\ Dict.get before (fst item) = Some old
              /\ old <> snd item /\ registered old /\ registered (snd item).
Proof.
  unfold changes_of, is_change, registered.
  destruct (Dict.get before (fst item)) as [old|].
  - destruct (String.eqb old (snd item)) eqn:E; simpl.
    + apply String.eqb_eq in E. split; [contradiction|].
      intros (old' & _ & Hget & Hne & _). congruence.
    + apply String.eqb_neq in E.
      destruct (Dict.mem JOB_MAP old) eqn:Ho; simpl.
      * destruct (Dict.mem JOB_MAP (snd item)) eqn:Hn; simpl.
        -- split.
           ++ intros [<- | []]. exists old. auto.
           ++ intros (old' & -> & Hget & _). left. congruence.
        -- split; [contradiction|]. intros (old' & _ & _ & _ & _ & H). discriminate.
      * split; [contradiction|].
        intros (old' & _ & Hget & _ & H & _). congruence.
  - simpl. split; [contradiction|]. intros (old' & _ & H & _). discriminate.
Qed.

Lemma changes_follow_items (before : dict string) (items : list (string * string)) :
  map (fun c : change => (fst (fst c), snd c)) (flat_map (changes_of before) items)
  = filter (is_change before) items.
Proof.
  induction items as [|item items IH]; simpl; [reflexivity|].
  rewrite map_app, IH. unfold changes_of at 1.
  destruct (is_change before item) eqn:E.
  - unfold is_change in E.
    destruct (Dict.get before (fst item)); [|discriminate].
    destruct item; reflexivity.
  - destruct (Dict.get before (fst item)); reflexivity.
Qed.

(** C1.  Against a prior roster, a change [(name, old, new)] is found
    exactly when the current roster maps [name] to [new], the prior roster
    holds [old] for [name], the two differ and both are registered; a name
    without prior entry yields none; and the changes come in the order of
    the current roster's items. *)
Theorem find_changes_exact (before current : dict string) :
  Dict.wf current ->
  exists changes : list change,
    find_changes (str_values before) current = Ok changes
    /\ (forall name old new,
          In (name, old, new) changes <->
          Dict.get current name = Some new /\ Dict.get before name = Some old
          /\ old <> new /\ registered old /\ registered new)
    /\ (forall name, Dict.get before name = None ->
          forall old new, ~ In (name, old, new) changes)
    /\ map (fun c : change => (fst (fst c), snd c)) changes
       = filter (is_change before) (Dict.items current).
Proof.
  intros Hwf. exists (flat_map (changes_of before) current).
  assert (Hin : forall name old new,
             In (name, old, new) (flat_map (changes_of before) current) <->
             Dict.get current name = Some new /\ Dict.get before name = Some old
             /\ old <> new /\ registered old /\ registered new).
  { intros name old new. rewrite in_flat_map. split.
    - intros ([n c] & Hitem & Hc). apply in_changes_of in Hc.
      destruct Hc as (old' & Heq & Hget & Hne & Ho & Hn). simpl in *.
      inversion Heq; subst. split; auto. now apply In_get.
    - intros (Hcur & Hget & Hne & Ho & Hn). exists (name, new). split.
      + now apply get_Some_In.
      + apply in_changes_of. exists old. auto. }
  split; [|split; [|split]].
  - unfold find_changes, Dict.items. apply find_changes_from_roster.
  - exact Hin.
  - intros name Hnone old new H. apply Hin in H.
    destruct H as (_ & Hget & _). congruence.
  - apply changes_follow_items.
Qed.

Lemma find_changes_exact_witness :
  Dict.wf [("Alice", "221"); ("Bob", "120")]
  /\ exists changes : list change,
       find_changes (str_values [("Alice", "220")]) [("Alice", "221"); ("Bob", "120")]
       = Ok changes
       /\ In ("Alice", "220", "221") changes
       /\ forall old new, ~ In ("Bob", old, new) changes.
Proof.
  assert (Hwf : Dict.wf [("Alice", "221"); ("Bob", "120")])
    by (apply distinct_wf; reflexivity).
  split; [exact Hwf|].
  destruct (find_changes_exact [("Alice", "220")] [("Alice", "221"); ("Bob", "120")] Hwf)
    as (changes & Hrun & Hin & Hnew & _).
  exists changes. split; [exact Hrun|]. split.
  - apply Hin. repeat split; try reflexivity. discriminate.
  - apply Hnew. reflexivity.
Defined.

(* ================================================================== *)
(** * Table extraction (4.1) *)

Section ExtractFacts.
Context {U : Unicode} {B : Bs4}.

Lemma rejected_row_unchanged (l : layout) (tr : tag) (current : dict string) :
  rejected l tr -> parse_row l current tr = current.
Proof.
  intros H. destruct l; simpl; unfold parse_online_row, parse_ranking_row;
    destruct H as [Hlen | td Htd Himg | td img Htd Himg Hre
                  | td img code Htd Himg Hre Hreg]; simpl in *.
  all: try (apply Nat.ltb_lt in Hlen; now rewrite Hlen).
  all: match goal with
       | |- (if ?c then _ else _) = _ => destruct c; [reflexivity|]
       end.
  all: rewrite Htd; simpl;
    match goal with
    | |- match ?x with _ => _ end = _ => destruct x; [|reflexivity]
    end.
  all: rewrite Himg; try reflexivity.
  all: unfold extract_job_code_from_img_src; rewrite Hre; try reflexivity.
  all: now rewrite Hreg, andb_false_r.
Qed.

Lemma parse_page_rows (l : layout) (html : string) :
  parse_page l html = fold_left (parse_row l) (table_rows (BeautifulSoup html)) [].
Proof. destruct l; reflexivity. Qed.


Lemma parse_row_wf (l : layout) (current : dict string) (tr : tag) :
  Dict.wf current -> Dict.wf (parse_row l current tr).
Proof.
  intros Hwf.
  destruct l; simpl; unfold parse_online_row, parse_ranking_row.
  all: repeat match goal with
       | |- Dict.wf (if ?c then _ else _) => destruct c
       | |- Dict.wf (match ?x with _ => _ end) => destruct x
       end; auto using wf_set.
Qed.

Lemma parse_page_wf (l : layout) (html : string) : Dict.wf (parse_page l html).
Proof.
  rewrite parse_page_rows.
  assert (H : forall rows current,
             Dict.wf current -> Dict.wf (fold_left (parse_row l) rows current)).
  { induction rows as [|tr rows IH]; intros current Hwf; simpl; auto.
    apply IH. now apply parse_row_wf. }
  apply H. constructor.
Qed.
End ExtractFacts.


(** Each of the four reasons on a row of the sample page. *)
Example rejected_sample_rows :
  rejected (U := ascii_digits) (B := Markup.bs4) Online Sample.bob_row
  /\ rejected (U := ascii_digits) (B := Markup.bs4) Online Sample.carol_row
  /\ rejected (U := ascii_digits) (B := Markup.bs4) Online Sample.dan_row
  /\ rejected (U := ascii_digits) (B := Markup.bs4) Online Sample.eve_row
  /\ rejected (U := ascii_digits) (B := Markup.bs4) Ranking Sample.alice_row.
Proof.
  split; [|split; [|split; [|split]]].
  - apply too_few_cells. simpl. lia.
  - now apply (no_image (B := Markup.bs4) Online Sample.carol_row
                 (Sample.cell [Markup.Text "none"])).
  - now apply (no_match (B := Markup.bs4) Online Sample.dan_row
                 (Sample.cell [Sample.icon "/img/job/mage.png"])
                 (Sample.icon "/img/job/mage.png")).
  - now apply (not_registered (B := Markup.bs4) Online Sample.eve_row
                 (Sample.cell [Sample.icon "/img/job/999.jpg"])
                 (Sample.icon "/img/job/999.jpg") "999").
  - apply too_few_cells. simpl. lia.
Qed.

(* ================================================================== *)
(** * The reference JSON codec reads back what it writes *)

Module JsonFacts.
Import Json.

Lemma append_nil_r (s : string) : s ++ "" = s.
Proof. induction s as [|c s IH]; simpl; congruence. Qed.

Lemma read_string_escape_char (c : ascii) (text : string) :
  read_string (escape_char c ++ text) = prepend (String c EmptyString) (read_string text).
Proof.
  destruct c as [[] [] [] [] [] [] [] []]; reflexivity.
Qed.

Lemma read_string_escape (s rest : string) :
  read_string (escape s ++ dquote ++ rest) = Some (s, rest).
Proof.
  induction s as [|c s IH].
  - reflexivity.
  - cbn [escape]. rewrite append_assoc, read_string_escape_char, IH. reflexivity.
Qed.

Lemma skip_ws_spaces (n : nat) (s : string) : skip_ws (spaces n ++ s) = skip_ws s.
Proof. induction n as [|n IH]; simpl; auto. Qed.

Lemma skip_ws_newline_indent (level : nat) (s : string) :
  skip_ws (newline_indent level ++ s) = skip_ws s.
Proof.
  unfold newline_indent. rewrite append_assoc. simpl. apply skip_ws_spaces.
Qed.

(** ** Integers *)

Lemma read_digits_uint (d : Decimal.uint) (rest : string) :
  ends_number rest = true ->
  read_digits (NilEmpty.string_of_uint d ++ rest) = (d, rest).
Proof.
  intros Hrest. induction d; simpl; try (rewrite IHd; reflexivity).
  destruct rest as [|c rest]; [reflexivity|].
  simpl in *. now destruct (digit_of c).
Qed.

Lemma to_uint_normal (p : positive) : Decimal.unorm (Pos.to_uint p) = Pos.to_uint p.
Proof.
  rewrite <- (DecimalPos.Unsigned.to_of (Pos.to_uint p)).
  now rewrite DecimalPos.Unsigned.of_to.
Qed.

Lemma to_uint_head (p : positive) :
  match Pos.to_uint p with
  | Decimal.Nil | Decimal.D0 _ => False
  | _ => True
  end.
Proof.
  pose proof (to_uint_normal p) as Hnorm.
  pose proof (DecimalPos.Unsigned.to_uint_nonzero p) as Hnz.
  revert Hnorm Hnz.
  destruct (Pos.to_uint p) as [|d| | | | | | | | |]; auto; intros Hnorm Hnz.
  destruct d as [|d'| | | | | | | | |] eqn:E; [now apply Hnz| ..].
    all: assert (Hnn : d <> Decimal.Nil) by (subst d; discriminate).
    all: pose proof (DecimalFacts.nb_digits_unorm d Hnn) as Hle.
    all: rewrite <- E in Hnorm.
    all: change (Decimal.unorm (Decimal.D0 d)) with (Decimal.unorm d) in Hnorm.
    all: rewrite Hnorm in Hle; simpl in Hle; lia.
Qed.

Lemma ends_number_float (rest : string) :
  ends_number rest = true -> starts_float rest = false.
Proof.
  destruct rest as [|c rest]; simpl; auto.
  destruct (digit_of c); [discriminate|].
  now destruct (Ascii.eqb c "." || Ascii.eqb c "e" || Ascii.eqb c "E").
Qed.

Lemma read_nat_pos (p : positive) (rest : string) :
  ends_number rest = true ->
  read_nat (NilEmpty.string_of_uint (Pos.to_uint p) ++ rest) = Some (Z.pos p, rest).
Proof.
  intros Hrest.
  pose proof (to_uint_head p) as Hhead.
  assert (Hval : Z.of_uint (Pos.to_uint p) = Z.pos p).
  { unfold Z.of_uint. now rewrite DecimalPos.Unsigned.of_to. }
  pose proof (read_digits_uint (Pos.to_uint p) rest Hrest) as Hread.
  pose proof (ends_number_float rest Hrest) as Hfloat.
  revert Hhead Hval Hread.
  destruct (Pos.to_uint p) as [|d|d|d|d|d|d|d|d|d|d]; try contradiction.
  all: intros _ Hval Hread.
  all: unfold read_nat; cbn [NilEmpty.string_of_uint append].
  all: cbn [NilEmpty.string_of_uint append] in Hread.
  all: change (digit_of _) with (Some Decimal.D1) ||
       change (digit_of _) with (Some Decimal.D2) ||
       change (digit_of _) with (Some Decimal.D3) ||
       change (digit_of _) with (Some Decimal.D4) ||
       change (digit_of _) with (Some Decimal.D5) ||
       change (digit_of _) with (Some Decimal.D6) ||
       change (digit_of _) with (Some Decimal.D7) ||
       change (digit_of _) with (Some Decimal.D8) ||
       change (digit_of _) with (Some Decimal.D9).
  all: cbv iota beta; change (Ascii.eqb _ "0") with false; cbv iota.
  all: rewrite Hread, Hfloat, Hval; reflexivity.
Qed.

Lemma pos_text (p : positive) :
  exists c s,
    NilEmpty.string_of_uint (Pos.to_uint p) = String c s
    /\ In c (list_ascii_of_string "123456789").
Proof.
  pose proof (to_uint_head p) as Hhead. revert Hhead.
  destruct (Pos.to_uint p) as [|d|d|d|d|d|d|d|d|d|d]; try contradiction; intros _.
  all: eexists; eexists; split; [reflexivity|]; simpl; tauto.
Qed.

Lemma pos_text_nilzero (p : positive) :
  NilZero.string_of_uint (Pos.to_uint p) = NilEmpty.string_of_uint (Pos.to_uint p).
Proof.
  pose proof (to_uint_head p) as Hhead. revert Hhead.
  now destruct (Pos.to_uint p).
Qed.

Lemma int_text (n : Z) :
  exists c s,
    NilZero.string_of_int (Z.to_int n) = String c s
    /\ In c (list_ascii_of_string "-0123456789").
Proof.
  destruct n as [|p|p]; cbn [Z.to_int NilZero.string_of_int].
  - eexists; eexists; split; [reflexivity|]. simpl. tauto.
  - destruct (pos_text p) as (c & s & E & Hc).
    exists c, s. rewrite pos_text_nilzero. split; [exact E|]. simpl in *. tauto.
  - eexists; eexists; split; [reflexivity|]. simpl. tauto.
Qed.

Lemma read_int_text (n : Z) (rest : string) :
  ends_number rest = true ->
  read_int (NilZero.string_of_int (Z.to_int n) ++ rest) = Some (JInt n, rest).
Proof.
  intros Hrest. destruct n as [|p|p]; cbn [Z.to_int NilZero.string_of_int].
  - unfold read_int, read_nat. cbn.
    now rewrite (ends_number_float rest Hrest).
  - pose proof (read_nat_pos p rest Hrest) as Hnat.
    destruct (pos_text p) as (c & s & E & Hc).
    rewrite pos_text_nilzero. rewrite E in *. simpl in Hc.
    repeat (destruct Hc as [<- | Hc]); try contradiction.
    all: cbn [append] in *; unfold read_int; cbv iota beta; now rewrite Hnat.
  - rewrite pos_text_nilzero. unfold read_int. cbn [append]. cbv iota beta.
    now rewrite (read_nat_pos p rest Hrest).
Qed.

(** ** First characters and lengths *)

Lemma length_append (a b : string) :
  String.length (a ++ b) = String.length a + String.length b.
Proof. induction a as [|c a IH]; simpl; auto. Qed.

Lemma solid_dumps (v : json) (level : nat) (rest : string) :
  plain v = true -> solid (dumps_at level v ++ rest) = true.
Proof.
  destruct v as [| [] | n | repr | s | [|x xs] | [|[k x] kvs]]; try reflexivity;
    try discriminate.
  intros _. cbn [dumps_at].
  destruct (int_text n) as (c & s & -> & Hc). simpl in Hc.
  repeat (destruct Hc as [<- | Hc]); try contradiction; reflexivity.
Qed.

Lemma json_induction (P : json -> Prop) :
  P JNull -> (forall b, P (JBool b)) -> (forall n, P (JInt n)) ->
  (forall repr, P (JFloat repr)) -> (forall s, P (JStr s)) ->
  (forall l, Forall P l -> P (JArr l)) ->
  (forall d, Forall (fun kv => P (snd kv)) d -> P (JObj d)) ->
  forall v, P v.
Proof.
  intros Hnull Hbool Hint Hfloat Hstr Harr Hobj.
  fix IH 1. intros [| b | n | repr | s | l | d].
  - exact Hnull.
  - apply Hbool.
  - apply Hint.
  - apply Hfloat.
  - apply Hstr.
  - apply Harr. induction l as [|x l IHl]; constructor; [apply IH | exact IHl].
  - apply Hobj. induction d as [|[k x] d IHd]; constructor; [apply IH | exact IHd].
Qed.

(** ** Values *)

Lemma read_value_S (fuel : nat) (c : ascii) (s : string) :
  read_value (S fuel) (String c s)
  = if Nat.eqb (nat_of_ascii c) 34 then
      match read_string s with
      | Some (t, rest) => Some (JStr t, rest)
      | None => None
      end
    else if Ascii.eqb c "{" then
      match eat "}" (skip_ws s) with
      | Some rest => Some (JObj [], rest)
      | None => read_members fuel (skip_ws s) []
      end
    else if Ascii.eqb c "[" then
      match eat "]" (skip_ws s) with
      | Some rest => Some (JArr [], rest)
      | None => read_elements fuel (skip_ws s) []
      end
    else if Ascii.eqb c "n" then literal "null" JNull (String c s)
    else if Ascii.eqb c "t" then literal "true" (JBool true) (String c s)
    else if Ascii.eqb c "f" then literal "false" (JBool false) (String c s)
    else read_int (String c s).
Proof. reflexivity. Qed.

Lemma read_elements_S (fuel : nat) (s : string) (acc : list json) :
  read_elements (S fuel) s acc
  = match read_value fuel s with
    | Some (v, s1) =>
        match eat "," (skip_ws s1) with
        | Some s2 => read_elements fuel (skip_ws s2) (acc ++ [v])
        | None =>
            match eat "]" (skip_ws s1) with
            | Some s2 => Some (JArr (acc ++ [v]), s2)
            | None => None
            end
        end
    | None => None
    end.
Proof. reflexivity. Qed.

Lemma read_members_S (fuel : nat) (s : string) (acc : dict json) :
  read_members (S fuel) s acc
  = match eat (ascii_of_nat 34) s with
    | Some s1 =>
        match read_string s1 with
        | Some (k, s2) =>
            match eat ":" (skip_ws s2) with
            | Some s3 =>
                match read_value fuel (skip_ws s3) with
                | Some (v, s4) =>
                    match eat "," (skip_ws s4) with
                    | Some s5 => read_members fuel (skip_ws s5) (Dict.set acc k v)
                    | None =>
                        match eat "}" (skip_ws s4) with
                        | Some s5 => Some (JObj (Dict.set acc k v), s5)
                        | None => None
                        end
                    end
                | None => None
                end
            | None => None
            end
        | None => None
        end
    | None => None
    end.
Proof. reflexivity. Qed.

Lemma solid_skip (s : string) : solid s = true -> skip_ws s = s /\ eat "]" s = None.
Proof.
  destruct s as [|c s]; simpl; [discriminate|].
  intros H. apply andb_prop in H as [Hws Hbr].
  destruct (is_ws c); [discriminate|].
  destruct (Ascii.eqb c "]"); [discriminate|]. auto.
Qed.

Lemma more_items_cons {A} (item : A -> string) (sep : string) (y : A) (l : list A) :
  more_items item sep (y :: l) = "," ++ sep ++ item y ++ more_items item sep l.
Proof. reflexivity. Qed.

(** Arithmetic on fuel, with the reading hypotheses out of the way. *)
Ltac fuel_lia :=
  unfold list_sum in *; cbn [map fold_right snd] in *;
  repeat match goal with
         | H : ?T |- _ =>
             lazymatch T with
             | _ < _ => fail
             | _ => lazymatch type of T with Prop => clear H end
             end
         end;
  lia.

Lemma size_pos (v : json) : 0 < size v.
Proof. destruct v; simpl; lia. Qed.

Lemma skip_comma (s : string) : eat "," (skip_ws ("," ++ s)) = Some s.
Proof. reflexivity. Qed.

Lemma read_elements_items (level : nat) (rest : string) (xs : list json) :
  Forall (fun x => plain x = true /\ reads_back x) xs ->
  forall x acc fuel,
    plain x = true -> reads_back x ->
    list_sum (map size (x :: xs)) + 1 < fuel ->
    read_elements fuel
      (dumps_at (S level) x
       ++ more_items (dumps_at (S level)) (newline_indent (S level)) xs
       ++ newline_indent level ++ String "]" rest) acc
    = Some (JArr (acc ++ x :: xs), rest).
Proof.
  induction 1 as [|y ys [Hpy Hy] Hys IH]; intros x acc fuel Hpx Hx Hfuel.
  - destruct fuel as [|fuel]; [fuel_lia|].
    rewrite read_elements_S.
    rewrite (Hx (S level) fuel) by (reflexivity || fuel_lia).
    cbn [more_items append]. rewrite skip_ws_newline_indent. reflexivity.
  - destruct fuel as [|fuel]; [fuel_lia|].
    pose proof (size_pos x) as Hsize.
    rewrite read_elements_S, more_items_cons.
    rewrite (Hx (S level) fuel) by (reflexivity || fuel_lia).
    rewrite !append_assoc, skip_comma, skip_ws_newline_indent.
    destruct (solid_skip (dumps_at (S level) y
                          ++ more_items (dumps_at (S level)) (newline_indent (S level)) ys
                          ++ newline_indent level ++ String "]" rest)) as [Hskip _].
    { apply solid_dumps; assumption. }
    rewrite Hskip, IH by (assumption || fuel_lia).
    now rewrite <- app_assoc.
Qed.

Lemma member_text_open (level : nat) (k : string) (x : json) (rest : string) :
  member_text (dumps_at (S level)) (k, x) ++ rest
  = String (ascii_of_nat 34)
      (escape k ++ dquote ++ ": " ++ dumps_at (S level) x ++ rest).
Proof.
  unfold member_text, encode_str. now rewrite !append_assoc.
Qed.

Lemma solid_member (level : nat) (kv : string * json) (rest : string) :
  solid (member_text (dumps_at (S level)) kv ++ rest) = true.
Proof. destruct kv as [k x]. now rewrite member_text_open. Qed.

Lemma skip_colon (s : string) : eat ":" (skip_ws (": " ++ s)) = Some (" " ++ s).
Proof. reflexivity. Qed.

Lemma skip_space (s : string) : skip_ws (" " ++ s) = skip_ws s.
Proof. reflexivity. Qed.

Lemma read_members_items (level : nat) (rest : string) (kvs : list (string * json)) :
  Forall (fun kv => plain (snd kv) = true /\ reads_back (snd kv)) kvs ->
  forall kv acc fuel,
    plain (snd kv) = true -> reads_back (snd kv) ->
    NoDup (map fst (acc ++ kv :: kvs)) ->
    list_sum (map (fun kv => size (snd kv)) (kv :: kvs)) + 1 < fuel ->
    read_members fuel
      (member_text (dumps_at (S level)) kv
       ++ more_items (member_text (dumps_at (S level))) (newline_indent (S level)) kvs
       ++ newline_indent level ++ String "}" rest) acc
    = Some (JObj (acc ++ kv :: kvs), rest).
Proof.
  induction 1 as [|kv' kvs [Hpy Hy] Hkvs IH];
    intros [k x] acc fuel Hpx Hx Hkeys Hfuel; simpl snd in *.
  all: destruct fuel as [|fuel]; [fuel_lia|].
  all: pose proof (size_pos x) as Hsize.
  all: assert (Hfresh : ~ In k (Dict.keys acc))
    by (unfold Dict.keys; rewrite map_app in Hkeys; simpl in Hkeys;
        apply NoDup_remove_2 in Hkeys; intros Hin; apply Hkeys;
        apply in_or_app; now left).
  all: rewrite read_members_S, member_text_open.
  all: cbn [eat]; rewrite Ascii.eqb_refl, read_string_escape.
  all: rewrite skip_colon, skip_space.
  all: match goal with
       | |- context [skip_ws (dumps_at ?l ?v ++ ?t)] =>
           destruct (solid_skip (dumps_at l v ++ t)) as [-> _];
           [now apply solid_dumps|]
       end.
  all: rewrite (Hx (S level) fuel) by (reflexivity || fuel_lia).
  all: rewrite set_fresh by assumption.
  - cbn [more_items append]. rewrite skip_ws_newline_indent. reflexivity.
  - rewrite more_items_cons, !append_assoc, skip_comma, skip_ws_newline_indent.
    match goal with
    | |- context [skip_ws (member_text ?d ?kv ++ ?t)] =>
        destruct (solid_skip (member_text d kv ++ t)) as [-> _];
        [now apply solid_member|]
    end.
    rewrite IH.
    + now rewrite <- app_assoc.
    + assumption.
    + assumption.
    + now rewrite <- app_assoc.
    + fuel_lia.
Qed.

Lemma read_value_first (fuel : nat) (c : ascii) (s : string) :
  In c (list_ascii_of_string "-0123456789") ->
  read_value (S fuel) (String c s) = read_int (String c s).
Proof.
  intros Hc. simpl in Hc. rewrite read_value_S.
  repeat (destruct Hc as [<- | Hc]); try contradiction; reflexivity.
Qed.

Lemma distinct_keys (d : dict json) : distinct (map fst d) = true -> NoDup (map fst d).
Proof. apply distinct_NoDup. Qed.

Lemma reads_back_plain (v : json) : plain v = true -> reads_back v.
Proof.
  induction v as [| b | n | repr | s | l IH | d IH] using json_induction;
    intros Hplain level fuel rest Hfuel Hrest.
  all: destruct fuel as [|fuel]; [pose proof (size_pos JNull); simpl in *; lia|].
  - reflexivity.
  - destruct b; reflexivity.
  - cbn [dumps_at]. destruct (int_text n) as (c & s & E & Hc).
    pose proof (read_int_text n rest Hrest) as Hint.
    rewrite E in *. cbn [append] in *. now rewrite read_value_first.
  - discriminate.
  - cbn [dumps_at]. unfold encode_str. rewrite !append_assoc.
    cbn [dquote append]. rewrite read_value_S. cbn [nat_of_ascii].
    change (Nat.eqb _ 34) with true. cbv iota.
    change (String (ascii_of_nat 34) rest) with (dquote ++ rest).
    now rewrite read_string_escape.
  - destruct l as [|x xs]; [reflexivity|].
    cbn [dumps_at]. rewrite !append_assoc. cbn [append]. rewrite read_value_S.
    change (Nat.eqb _ 34) with false. change (Ascii.eqb "[" "{") with false.
    change (Ascii.eqb "[" "[") with true. cbv iota.
    rewrite skip_ws_newline_indent.
    cbn [plain forallb] in Hplain. apply andb_prop in Hplain as [Hpx Hpxs].
    inversion IH as [|? ? Hx Hxs]; subst.
    match goal with
    | |- context [skip_ws (dumps_at ?l ?v ++ ?t)] =>
        destruct (solid_skip (dumps_at l v ++ t)) as [-> ->];
        [now apply solid_dumps|]
    end.
    apply (read_elements_items level rest xs); auto.
    + rewrite Forall_forall in *. intros y Hy. rewrite forallb_forall in Hpxs. auto.
    + cbn [size] in Hfuel. fuel_lia.
  - destruct d as [|kv kvs]; [reflexivity|].
    cbn [dumps_at]. rewrite !append_assoc. cbn [append]. rewrite read_value_S.
    change (Nat.eqb _ 34) with false. change (Ascii.eqb "{" "{") with true. cbv iota.
    rewrite skip_ws_newline_indent.
    cbn [plain] in Hplain. apply andb_prop in Hplain as [Hkeys Hpd].
    cbn [forallb] in Hpd. apply andb_prop in Hpd as [Hpx Hpxs].
    inversion IH as [|? ? Hx Hxs]; subst.
    destruct (solid_skip (member_text (dumps_at (S level)) kv
                          ++ more_items (member_text (dumps_at (S level)))
                               (newline_indent (S level)) kvs
                          ++ newline_indent level ++ String "}" rest)) as [-> _];
      [apply solid_member|].
    replace (eat "}" _) with (@None string)
      by (destruct kv; rewrite member_text_open; reflexivity).
    apply (read_members_items level rest kvs); auto.
    + rewrite Forall_forall in *. intros y Hy. rewrite forallb_forall in Hpxs. auto.
    + now apply distinct_keys.
    + cbn [size] in Hfuel. fuel_lia.
Qed.

(** ** Enough fuel *)

Lemma more_items_length {A} (item : A -> string) (weight : A -> nat) (sep : string)
    (l : list A) :
  Forall (fun y => weight y <= String.length (item y)) l ->
  list_sum (map weight l) <= String.length (more_items item sep l).
Proof.
  induction 1 as [|y l Hy Hl IH]; [apply Nat.le_refl|].
  rewrite more_items_cons, !length_append.
  unfold list_sum in *. cbn [map fold_right] in *. lia.
Qed.

Lemma size_le_length (v : json) :
  plain v = true -> forall level, size v <= String.length (dumps_at level v).
Proof.
  induction v as [| b | n | repr | s | l IH | d IH] using json_induction;
    intros Hplain level.
  - simpl. lia.
  - destruct b; simpl; lia.
  - cbn [dumps_at size]. destruct (int_text n) as (c & s & -> & _). simpl. lia.
  - discriminate.
  - cbn [dumps_at size]. unfold encode_str. rewrite !length_append. simpl. lia.
  - destruct l as [|x xs]; [simpl; lia|].
    cbn [plain forallb] in Hplain. apply andb_prop in Hplain as [Hpx Hpxs].
    inversion IH as [|? ? Hx Hxs]; subst.
    cbn [dumps_at size]. rewrite !length_append.
    assert (Hmore : list_sum (map size xs)
                    <= String.length (more_items (dumps_at (S level))
                                        (newline_indent (S level)) xs)).
    { apply more_items_length. rewrite Forall_forall in *. intros y Hy.
      rewrite forallb_forall in Hpxs. auto. }
    specialize (Hx Hpx (S level)).
    unfold list_sum in *. cbn [map fold_right String.length] in *. lia.
  - destruct d as [|[k x] kvs]; [simpl; lia|].
    cbn [plain] in Hplain. apply andb_prop in Hplain as [_ Hpd].
    cbn [forallb snd] in Hpd. apply andb_prop in Hpd as [Hpx Hpxs].
    inversion IH as [|? ? Hx Hxs]; subst. cbn [snd] in Hx.
    cbn [dumps_at size member_text]. rewrite !length_append.
    assert (Hmore : list_sum (map (fun kv => size (snd kv)) kvs)
                    <= String.length (more_items (member_text (dumps_at (S level)))
                                        (newline_indent (S level)) kvs)).
    { apply more_items_length. rewrite Forall_forall in *. intros [k' y] Hy.
      rewrite forallb_forall in Hpxs. unfold member_text.
      rewrite !length_append. specialize (Hxs _ Hy (Hpxs _ Hy) (S level)).
      cbn [snd] in *. lia. }
    specialize (Hx Hpx (S level)).
    unfold list_sum in *. cbn [map fold_right String.length snd] in *. lia.
Qed.

(** The reference codec reads back what it writes for every plain value. *)
Lemma loads_dumps (v : json) : plain v = true -> loads (dumps v) = Some v.
Proof.
  intros Hplain. unfold loads, dumps.
  assert (Hsolid : skip_ws (dumps_at 0 v) = dumps_at 0 v).
  { apply solid_skip. rewrite <- (append_nil_r (dumps_at 0 v)).
    now apply solid_dumps. }
  rewrite Hsolid.
  rewrite <- (append_nil_r (dumps_at 0 v)) at 2.
  rewrite (reads_back_plain v Hplain 0).
  - reflexivity.
  - pose proof (size_le_length v Hplain 0). lia.
  - reflexivity.
Qed.
End JsonFacts.

(* ================================================================== *)
(** * The state file (4.3) *)

Section StoreFacts.
Context {J : JsonLib}.

Lemma ensure_state_ensured (w : world) : ensure_state w = (Ok tt, ensured w).
Proof.
  destruct w as [[text|] out n]; reflexivity.
Qed.

Lemma load_state_ensured (w : world) :
  load_state w
  = (Ok (match json_loads (state_text w) with
         | Some state => state
         | None => JObj []
         end), ensured w).
Proof.
  unfold load_state, bind. rewrite ensure_state_ensured. simpl.
  destruct (json_loads (state_text w)); reflexivity.
Qed.

(** C6.  When the text of the state file does not parse, [load_state]
    returns the empty dict and raises nothing; its players are the empty
    roster. *)
Theorem load_state_unparsable (w : world) (text : string) :
  state_file w = Some text ->
  json_loads text = None ->
  load_state w = (Ok (JObj []), w) /\ players_before (JObj []) = Ok [].
Proof.
  intros Hfile Hparse. split; [|reflexivity].
  rewrite load_state_ensured. unfold ensured, state_text.
  rewrite Hfile, Hparse. destruct w; simpl in *. now subst.
Qed.

Lemma save_then_load_with (w : world) (state : json) :
  json_loads (json_dumps state) = Some state ->
  exists w1 w2,
    save_state state w = (Ok tt, w1) /\ load_state w1 = (Ok state, w2).
Proof.
  intros Hcodec.
  exists (mkWorld (Some (json_dumps state)) (sent w) (quote_calls w)).
  eexists. split; [reflexivity|].
  rewrite load_state_ensured. unfold state_text. simpl. now rewrite Hcodec.
Qed.
End StoreFacts.

Lemma load_state_unparsable_witness :
  json_loads (JsonLib := Json.lib) "{oops" = None
  /\ load_state (J := Json.lib) (mkWorld (Some "{oops") [] 0)
     = (Ok (JObj []), mkWorld (Some "{oops") [] 0).
Proof.
  split; [reflexivity|].
  apply (load_state_unparsable (J := Json.lib)
           (mkWorld (Some "{oops") [] 0) "{oops"); reflexivity.
Defined.



(* ================================================================== *)
(** * One run (4.6) *)

Lemma bind_ok {A C} (m : M A) (k : A -> M C) (a : A) (w w1 : world) :
  m w = (Ok a, w1) -> bind m k w = k a w1.
Proof. unfold bind. now intros ->. Qed.

Lemma bind_raise {A C} (m : M A) (k : A -> M C) (e : exn) (w w1 : world) :
  m w = (Raise e, w1) -> bind m k w = (Raise e, w1).
Proof. unfold bind. now intros ->. Qed.

(** C5 as stated fails: with no state file, the run that cannot fetch
    leaves a state file behind. *)
Lemma failed_fetch_creates_state_file :
  fetch_fails (O := Sample.offline) "online"
  /\ Sample.run_in Sample.offline "online" false Sample.fresh
     = (Raise HTTPError, mkWorld (Some "{}") [] 0)
  /\ state_file (snd (Sample.run_in Sample.offline "online" false Sample.fresh))
     <> state_file Sample.fresh.
Proof.
  split; [left; split; reflexivity|]. split; [reflexivity|].
  vm_compute. discriminate.
Qed.

Section RunFacts.
Context {U : Unicode} {B : Bs4} {J : JsonLib} {O : Outside}.

Lemma players_before_raises (state : json) (e : exn) :
  players_before state = Raise e -> e = AttributeError.
Proof.
  unfold players_before, state_get.
  destruct state; try (intros H; now inversion H).
  destruct (Dict.get_default d "players" (JObj [])); discriminate.
Qed.

Lemma players_before_dict (state : json) (before : dict json) :
  players_before state = Ok before -> exists loaded, state = JObj loaded.
Proof.
  unfold players_before, state_get.
  destruct state; try discriminate. intros _. now exists d.
Qed.

Lemma fetch_fails_raises (source : string) (w : world) :
  fetch_fails source -> fetch_current_total source w = (Raise HTTPError, w).
Proof.
  unfold fetch_fails, fetch_current_total, bind, http_get, ret, raise.
  intros [[Hsrc Hget] | [Hsrc Hget]].
  - rewrite Hsrc, Hget. reflexivity.
  - rewrite Hsrc, Hget.
    destruct (str_in source ["online"; "both"]); [|reflexivity].
    destruct (http_response ONLINE_URL); reflexivity.
Qed.

Lemma fetch_succeeds_ok (source : string) (w : world) :
  fetch_succeeds source ->
  exists current, fetch_current_total source w = (Ok current, w) /\ Dict.wf current.
Proof.
  unfold fetch_succeeds, fetch_current_total, bind, http_get, ret, raise.
  intros [Honline Hranking].
  assert (Hnil : Dict.wf (@nil (string * string))) by constructor.
  destruct (str_in source ["online"; "both"]);
    destruct (str_in source ["ranking"; "both"]).
  all: try (destruct (http_response ONLINE_URL) as [page1|];
            [|exfalso; now apply Honline]).
  all: try (destruct (http_response RANKING_URL) as [page2|];
            [|exfalso; now apply Hranking]).
  all: eexists; split; [reflexivity|]; auto using merge_dicts_wf.
Qed.

Lemma find_changes_from_empty (items : list (string * string)) (changes : list change) :
  find_changes_from [] items changes = Ok changes.
Proof.
  induction items as [|[name new_code] items IH]; simpl; auto.
Qed.

Lemma post_no_changes (url : string) (dry_run : bool) (w : world) :
  post_changes url dry_run [] w = (Ok tt, w).
Proof. reflexivity. Qed.

Lemma failed_fetch_run (source : string) (dry_run : bool) (w : world) :
  fetch_fails source ->
  run source dry_run w
  = (match players_before (match json_loads (state_text w) with
                           | Some state => state
                           | None => JObj []
                           end) with
     | Ok _ => Raise HTTPError
     | Raise e => Raise e
     end, ensured w).
Proof.
  intros Hfail. unfold run.
  rewrite (bind_ok _ _ _ _ _ (load_state_ensured w)).
  destruct (players_before _) as [before|e] eqn:Hbefore.
  - rewrite (bind_ok _ _ before (ensured w) (ensured w)) by reflexivity.
    now rewrite (bind_raise _ _ _ _ _ (fetch_fails_raises source (ensured w) Hfail)).
  - now rewrite (bind_raise _ _ e (ensured w) (ensured w)) by reflexivity.
Qed.

(** C5, amended.  A run that cannot fetch a page it asks for ends with
    an error before anything is posted and before the state is saved:
    nothing is sent, and the state file holds the text it held before the
    run, or, if there was none, the text [{}] that loading wrote. *)
Theorem failed_fetch_aborts_run (source : string) (dry_run : bool) (w : world) :
  fetch_fails source ->
  (fst (run source dry_run w) = Raise HTTPError
   \/ fst (run source dry_run w) = Raise AttributeError)
  /\ sent (snd (run source dry_run w)) = sent w
  /\ state_file (snd (run source dry_run w)) = Some (state_text w).
Proof.
  intros Hfail. rewrite failed_fetch_run by assumption. simpl.
  split; [|split; reflexivity].
  destruct (players_before _) as [before|e] eqn:Hbefore; [now left|].
  right. f_equal. now apply players_before_raises in Hbefore.
Qed.

(** C9.  When a run completes, the state it saves is the loaded state
    with [players] and [last_run_source] assigned: every other key has the
    value it was loaded with. *)
Theorem run_keeps_other_keys (source : string) (dry_run : bool) (w w' : world) :
  run source dry_run w = (Ok tt, w') ->
  exists (loaded after : dict json),
    fst (load_state w) = Ok (JObj loaded)
    /\ state_file w' = Some (json_dumps (JObj (saved_state loaded after source)))
    /\ forall key, key <> "players" -> key <> "last_run_source" ->
         Dict.get (saved_state loaded after source) key = Dict.get loaded key.
Proof.
  unfold run. rewrite (bind_ok _ _ _ _ _ (load_state_ensured w)).
  rewrite load_state_ensured. simpl fst.
  set (state := match json_loads (state_text w) with
                | Some state => state
                | None => JObj []
                end).
  unfold bind at 1, lift.
  destruct (players_before state) as [before|e] eqn:Hbefore; [|discriminate].
  destruct (players_before_dict _ _ Hbefore) as [loaded Hloaded].
  rewrite Hloaded. unfold bind at 1.
  destruct (fetch_current_total source (ensured w)) as [[current|e] w1]; [|discriminate].
  unfold bind at 1.
  destruct (find_changes before current) as [changes|e]; [|discriminate].
  unfold bind at 1.
  destruct (post_changes DISCORD_WEBHOOK_URL dry_run changes w1) as [[[]|e] w2];
    [|discriminate].
  simpl. unfold save_state, write_state_file. intros Hrun.
  inversion Hrun; subst w'; clear Hrun.
  exists loaded, (reconcile before current). split; [reflexivity|]. split.
  - reflexivity.
  - intros key Hp Hs. unfold saved_state.
    rewrite !get_set_other by congruence. reflexivity.
Qed.

End RunFacts.

Lemma failed_fetch_aborts_run_witness :
  fetch_fails (O := Sample.offline) "online"
  /\ (fst (Sample.run_in Sample.offline "online" false Sample.noted) = Raise HTTPError
      \/ fst (Sample.run_in Sample.offline "online" false Sample.noted)
         = Raise AttributeError)
  /\ sent (snd (Sample.run_in Sample.offline "online" false Sample.noted))
     = sent Sample.noted
  /\ state_file (snd (Sample.run_in Sample.offline "online" false Sample.noted))
     = Some (state_text Sample.noted).
Proof.
  assert (Hfail : fetch_fails (O := Sample.offline) "online")
    by (left; split; reflexivity).
  split; [exact Hfail|].
  exact (failed_fetch_aborts_run (U := ascii_digits) (B := Markup.bs4) (J := Json.lib)
           (O := Sample.offline) "online" false Sample.noted Hfail).
Defined.

Lemma run_keeps_other_keys_witness :
  Sample.run_in Sample.online_only "online" true Sample.noted
  = (Ok tt, snd (Sample.run_in Sample.online_only "online" true Sample.noted))
  /\ exists loaded after : dict json,
       fst (load_state (J := Json.lib) Sample.noted) = Ok (JObj loaded)
       /\ state_file (snd (Sample.run_in Sample.online_only "online" true Sample.noted))
          = Some (Json.dumps (JObj (saved_state loaded after "online")))
       /\ forall key, key <> "players" -> key <> "last_run_source" ->
            Dict.get (saved_state loaded after "online") key = Dict.get loaded key.
Proof.
  assert (Hrun : Sample.run_in Sample.online_only "online" true Sample.noted
                 = (Ok tt, snd (Sample.run_in Sample.online_only "online" true
                                  Sample.noted)))
    by (vm_compute; reflexivity).
  split; [exact Hrun|].
  exact (run_keeps_other_keys (U := ascii_digits) (B := Markup.bs4) (J := Json.lib)
           (O := Sample.online_only) "online" true Sample.noted _ Hrun).
Defined.


(* ================================================================== *)
(** * The scenarios of the specification *)

Example scenario_A :
  find_changes (str_values [("Alice", "220")]) [("Alice", "221")]
  = Ok [("Alice", "220", "221")]
  /\ reconcile (str_values [("Alice", "220")]) [("Alice", "221")]
     = str_values [("Alice", "221")].
Proof. split; reflexivity. Qed.

Example scenario_B :
  find_changes [] [("Bob", "120")] = Ok []
  /\ reconcile [] [("Bob", "120")] = str_values [("Bob", "120")].
Proof. split; reflexivity. Qed.

Example scenario_C :
  find_changes (str_values [("Carol", "320")]) [] = Ok []
  /\ reconcile (str_values [("Carol", "320")]) [] = str_values [("Carol", "320")].
Proof. split; reflexivity. Qed.

Example scenario_D :
  merge_dicts [("Dave", "220")] [("Dave", "221")] = [("Dave", "221")].
Proof. reflexivity. Qed.

Example scenario_E :
  find_changes (str_values [("Eve", "999")]) [("Eve", "220")] = Ok []
  /\ reconcile (str_values [("Eve", "999")]) [("Eve", "220")]
     = str_values [("Eve", "220")].
Proof. split; reflexivity. Qed.

(** A prior value that cannot be hashed stops the run where the changes
    are looked for. *)
Example unhashable_prior_value :
  find_changes [("Eve", JArr [JStr "220"])] [("Eve", "220")] = Raise TypeError.
Proof. reflexivity. Qed.

Example search_is_leftmost :
  extract_job_code_from_img_src (U := ascii_digits) "/999.jpg/220.jpg" = Some "999"
  /\ extract_job_code_from_img_src (U := ascii_digits) "/img/job/220.jpg?v=2" = Some "220"
  /\ extract_job_code_from_img_src (U := ascii_digits) "220.jpg" = None.
Proof. repeat split. Qed.

Example parse_sample_page :
  parse_online (U := ascii_digits) (B := Markup.bs4) Sample.online_page = [("Alice", "220")]
  /\ parse_ranking (U := ascii_digits) (B := Markup.bs4) Sample.online_page = [].
Proof. split; reflexivity. Qed.

(* ================================================================== *)
(** * The job code of an icon path *)

Lemma starts_with_app (p s : string) :
  starts_with p s = true -> exists rest, s = p ++ rest.
Proof.
  revert s. induction p as [|a p IH]; intros s H; simpl in *.
  - now exists s.
  - destruct s as [|b s]; [discriminate|].
    apply andb_prop in H as [Hab Hps]. apply Ascii.eqb_eq in Hab. subst b.
    destruct (IH s Hps) as [rest ->]. now exists rest.
Qed.

Lemma starts_with_prefix (p rest : string) : starts_with p (p ++ rest) = true.
Proof.
  induction p as [|a p IH]; simpl; auto. now rewrite Ascii.eqb_refl.
Qed.

Section PatternFacts.
Context {U : Unicode}.

Lemma match_here_occurs (s code : string) :
  digits_are_prefixes ->
  match_job_code_here s = Some code ->
  exists post, s = "/" ++ code ++ ".jpg" ++ post.
Proof.
  intros Hlaw. unfold match_job_code_here.
  destruct s as [|c0 s1]; [discriminate|].
  destruct (Ascii.eqb c0 "/") eqn:E0; [|discriminate].
  apply Ascii.eqb_eq in E0. subst c0.
  destruct (decimal_digit s1) as [[d1 s2]|] eqn:E1; [|discriminate].
  destruct (decimal_digit s2) as [[d2 s3]|] eqn:E2; [|discriminate].
  destruct (decimal_digit s3) as [[d3 s4]|] eqn:E3; [|discriminate].
  destruct (starts_with ".jpg" s4) eqn:E4; [|discriminate].
  intros H. inversion H; subst code; clear H.
  apply Hlaw in E1, E2, E3. apply starts_with_app in E4 as [post E4].
  exists post. subst s1 s2 s3 s4. simpl. now rewrite !append_assoc.
Qed.

Lemma match_here_digits (c1 c2 c3 : ascii) (post : string) :
  ascii_digits_count ->
  is_digit c1 = true -> is_digit c2 = true -> is_digit c3 = true ->
  match_job_code_here
    ("/" ++ String c1 (String c2 (String c3 EmptyString)) ++ ".jpg" ++ post)
  = Some (String c1 (String c2 (String c3 EmptyString))).
Proof.
  intros Hlaw H1 H2 H3. unfold match_job_code_here. cbn [append].
  rewrite Ascii.eqb_refl.
  rewrite (Hlaw c1 _ H1), (Hlaw c2 _ H2), (Hlaw c3 _ H3).
  change (String "." (String "j" (String "p" (String "g" post))))
    with (".jpg" ++ post).
  now rewrite starts_with_prefix.
Qed.

Lemma match_here_slash (s code : string) :
  match_job_code_here s = Some code -> exists s', s = String "/" s'.
Proof.
  unfold match_job_code_here. destruct s as [|c0 s1]; [discriminate|].
  destruct (Ascii.eqb c0 "/") eqn:E0; [|discriminate].
  apply Ascii.eqb_eq in E0. subst c0. intros _. now exists s1.
Qed.

Lemma search_cons (c : ascii) (src : string) :
  JOB_CODE_RE_search (String c src)
  = match match_job_code_here (String c src) with
    | Some code => Some code
    | None => JOB_CODE_RE_search src
    end.
Proof. reflexivity. Qed.

Lemma search_nil : JOB_CODE_RE_search "" = None.
Proof. reflexivity. Qed.

Lemma search_leftmost (src code : string) :
  JOB_CODE_RE_search src = Some code ->
  exists pre suf,
    src = pre ++ suf /\ match_job_code_here suf = Some code
    /\ forall pre' suf', src = pre' ++ suf' ->
         String.length pre' < String.length pre ->
         match_job_code_here suf' = None.
Proof.
  induction src as [|c src IH].
  - rewrite search_nil. discriminate.
  - rewrite search_cons.
    destruct (match_job_code_here (String c src)) as [code'|] eqn:E.
    + intros [= <-]. exists "", (String c src).
      split; [reflexivity|]. split; [exact E|].
      intros pre' suf' _ Hlen. simpl in Hlen. lia.
    + intros H. destruct (IH H) as (pre & suf & Hsrc & Hm & Hleft).
      exists (String c pre), suf. split; [simpl; now rewrite Hsrc|].
      split; [exact Hm|].
      intros pre' suf' Hsplit Hlen. destruct pre' as [|c' pre'].
      * simpl in Hsplit. now subst suf'.
      * simpl in Hsplit. inversion Hsplit; subst c'.
        apply (Hleft pre' suf'); [assumption|]. simpl in Hlen. lia.
Qed.

Lemma search_finds (pre suf code : string) :
  match_job_code_here suf = Some code ->
  JOB_CODE_RE_search (pre ++ suf) <> None.
Proof.
  intros Hm. induction pre as [|c pre IH].
  - cbn [append]. destruct suf as [|c suf]; [discriminate Hm|].
    rewrite search_cons, Hm. discriminate.
  - cbn [append]. rewrite search_cons.
    destruct (match_job_code_here (String c (pre ++ suf))); [discriminate|].
    exact IH.
Qed.

Lemma search_first_slash (pre suf code : string) :
  ~ In "/"%char (list_ascii_of_string pre) ->
  match_job_code_here suf = Some code ->
  JOB_CODE_RE_search (pre ++ suf) = Some code.
Proof.
  intros Hpre Hm. induction pre as [|c pre IH].
  - cbn [append]. destruct suf as [|c suf]; [discriminate Hm|].
    now rewrite search_cons, Hm.
  - cbn [append]. rewrite search_cons.
    destruct (match_job_code_here (String c (pre ++ suf))) as [code'|] eqn:E.
    + apply match_here_slash in E as [s' E]. inversion E; subst c.
      exfalso. apply Hpre. simpl. now left.
    + apply IH. intros Hin. apply Hpre. simpl. now right.
Qed.

(** X1.  The code taken from an icon path stands in the path between a
    slash and [.jpg], at the first place where the pattern matches. *)
Theorem extracted_code_occurs (src code : string) :
  digits_are_prefixes ->
  extract_job_code_from_img_src src = Some code ->
  exists pre post,
    src = pre ++ "/" ++ code ++ ".jpg" ++ post
    /\ forall pre' suf', src = pre' ++ suf' ->
         String.length pre' < String.length pre ->
         match_job_code_here suf' = None.
Proof.
  intros Hlaw. unfold extract_job_code_from_img_src.
  destruct (JOB_CODE_RE_search src) as [g1|] eqn:E; [|discriminate].
  intros H. inversion H; subst g1; clear H.
  destruct (search_leftmost src code E) as (pre & suf & Hsrc & Hm & Hleft).
  destruct (match_here_occurs suf code Hlaw Hm) as [post Hsuf].
  exists pre, post. split; [now rewrite Hsrc, Hsuf | exact Hleft].
Qed.

(** X2.  A path that holds a slash, three digits and [.jpg] always
    yields a code, and it yields these digits when no slash comes before. *)
Theorem digits_path_yields_code (pre post : string) (c1 c2 c3 : ascii) :
  ascii_digits_count ->
  is_digit c1 = true -> is_digit c2 = true -> is_digit c3 = true ->
  let code := String c1 (String c2 (String c3 EmptyString)) in
  extract_job_code_from_img_src (pre ++ "/" ++ code ++ ".jpg" ++ post) <> None
  /\ (~ In "/"%char (list_ascii_of_string pre) ->
      extract_job_code_from_img_src (pre ++ "/" ++ code ++ ".jpg" ++ post) = Some code).
Proof.
  intros Hlaw H1 H2 H3 code.
  pose proof (match_here_digits c1 c2 c3 post Hlaw H1 H2 H3) as Hm.
  fold code in Hm. unfold extract_job_code_from_img_src. split.
  - pose proof (search_finds pre _ _ Hm) as Hfound.
    destruct (JOB_CODE_RE_search (pre ++ "/" ++ code ++ ".jpg" ++ post));
      [discriminate | contradiction].
  - intros Hpre. now rewrite (search_first_slash pre _ _ Hpre Hm).
Qed.
End PatternFacts.

Lemma ascii_digits_prefixes : digits_are_prefixes (U := ascii_digits).
Proof.
  intros s d rest. simpl. destruct s as [|c s]; [discriminate|].
  destruct (is_digit c); [|discriminate]. intros H. now inversion H.
Qed.

Lemma ascii_digits_counted : ascii_digits_count (U := ascii_digits).
Proof. intros c s H. simpl. now rewrite H. Qed.

Lemma extracted_code_occurs_witness :
  extract_job_code_from_img_src (U := ascii_digits) "/img/job/220.jpg?v=2" = Some "220"
  /\ exists pre post,
       "/img/job/220.jpg?v=2" = pre ++ "/" ++ "220" ++ ".jpg" ++ post
       /\ forall pre' suf', "/img/job/220.jpg?v=2" = pre' ++ suf' ->
            String.length pre' < String.length pre ->
            match_job_code_here (U := ascii_digits) suf' = None.
Proof.
  split; [reflexivity|].
  apply (extracted_code_occurs (U := ascii_digits) "/img/job/220.jpg?v=2" "220"
           ascii_digits_prefixes).
  reflexivity.
Defined.

Lemma digits_path_yields_code_witness :
  extract_job_code_from_img_src (U := ascii_digits)
    ("job" ++ "/" ++ "321" ++ ".jpg" ++ "?v=2") = Some "321".
Proof.
  destruct (digits_path_yields_code (U := ascii_digits) "job" "?v=2" "3" "2" "1"
              ascii_digits_counted eq_refl eq_refl eq_refl) as [_ Hfirst].
  apply Hfirst. simpl. intuition discriminate.
Defined.

(* ================================================================== *)
(** * What the rows of a page put into the roster *)

Lemma registered_truthy (code : string) :
  Dict.mem JOB_MAP code = true -> str_truthy code = true.
Proof. destruct code; [discriminate | reflexivity]. Qed.

Section RowFacts.
Context {U : Unicode} {B : Bs4}.

Lemma parse_row_entry (l : layout) (current : dict string) (tr : tag) :
  parse_row l current tr
  = match row_entry l tr with
    | Some (name, code) => Dict.set current name code
    | None => current
    end.
Proof.
  unfold row_entry.
  destruct l; cbn [parse_row min_cells name_index icon_index];
    unfold parse_online_row, parse_ranking_row, extract_job_code_from_img_src.
  all: destruct (Nat.ltb (List.length (find_all tr "td")) _); [reflexivity|].
  all: repeat match goal with
         | |- context [match nth_error ?l ?n with _ => _ end] =>
             destruct (nth_error l n); try reflexivity
         end.
  all: match goal with
       | |- context [find ?t "img"] => destruct (find t "img"); [|reflexivity]
       end.
  all: match goal with
       | |- context [JOB_CODE_RE_search ?x] =>
           destruct (JOB_CODE_RE_search x) as [code|]; [|reflexivity]
       end.
  all: destruct (Dict.mem JOB_MAP code) eqn:E;
    [now rewrite (registered_truthy code E) | now rewrite andb_false_r].
Qed.

Lemma row_entry_registered (l : layout) (tr : tag) (name code : string) :
  row_entry l tr = Some (name, code) -> registered code.
Proof.
  unfold row_entry, registered.
  destruct (Nat.ltb _ _); [discriminate|].
  destruct (nth_error _ (name_index l)); [|discriminate].
  destruct (nth_error _ (icon_index l)); [|discriminate].
  destruct (find _ "img"); [|discriminate].
  destruct (JOB_CODE_RE_search _) as [code'|]; [|discriminate].
  destruct (Dict.mem JOB_MAP code') eqn:E; [|discriminate].
  now intros [= _ <-].
Qed.

Lemma rows_get (l : layout) (rows : list tag) (current : dict string)
    (name code : string) :
  Dict.get (fold_left (parse_row l) rows current) name = Some code ->
  Dict.get current name = Some code
  \/ exists tr, In tr rows /\ row_entry l tr = Some (name, code).
Proof.
  revert current. induction rows as [|tr rows IH]; intros current H; simpl in *.
  - now left.
  - destruct (IH _ H) as [Hcur | (tr' & Hin & He)].
    + rewrite parse_row_entry in Hcur.
      destruct (row_entry l tr) as [[name' code']|] eqn:E; [|now left].
      destruct (String.eqb name' name) eqn:En.
      * apply String.eqb_eq in En. subst name'.
        rewrite get_set_same in Hcur. inversion Hcur; subst code'.
        right. exists tr. auto.
      * apply String.eqb_neq in En. rewrite get_set_other in Hcur by assumption.
        now left.
    + right. exists tr'. auto.
Qed.

Lemma rows_keep (l : layout) (rows : list tag) (current : dict string)
    (name : string) :
  forallb (fun tr => negb (names_row l name tr)) rows = true ->
  Dict.get (fold_left (parse_row l) rows current) name = Dict.get current name.
Proof.
  revert current. induction rows as [|tr rows IH]; intros current H; simpl in *.
  - reflexivity.
  - apply andb_prop in H as [Htr Hrows]. rewrite IH by assumption.
    rewrite parse_row_entry. unfold names_row in Htr.
    destruct (row_entry l tr) as [[name' code']|]; [|reflexivity].
    apply negb_true_iff in Htr. apply String.eqb_neq in Htr.
    now apply get_set_other.
Qed.

(** X3.  Every item of the roster read from a page has a registered code
    and is the item of one of the page's rows: the text of the row's name
    cell with the code of its icon. *)
Theorem roster_items_come_from_rows (l : layout) (html name code : string) :
  Dict.get (parse_page l html) name = Some code ->
  registered code
  /\ exists tr, In tr (table_rows (BeautifulSoup html))
                /\ row_entry l tr = Some (name, code).
Proof.
  rewrite parse_page_rows. intros H.
  destruct (rows_get l _ [] name code H) as [Hnil | (tr & Hin & He)].
  - discriminate.
  - split; [now apply (row_entry_registered l tr name) | now exists tr].
Qed.

(** X4.  When several rows of a page name the same player, the last of
    them decides: the roster holds the item of a row that no later row
    overrides. *)
Theorem last_row_of_a_name_wins (l : layout) (html : string)
    (rows_before rows_after : list tag) (tr : tag) (name code : string) :
  table_rows (BeautifulSoup html) = (rows_before ++ tr :: rows_after)%list ->
  row_entry l tr = Some (name, code) ->
  forallb (fun later => negb (names_row l name later)) rows_after = true ->
  Dict.get (parse_page l html) name = Some code.
Proof.
  intros Hrows Hentry Hlater.
  rewrite parse_page_rows, Hrows, fold_left_app. cbn [fold_left].
  rewrite rows_keep by assumption.
  rewrite parse_row_entry, Hentry. apply get_set_same.
Qed.
End RowFacts.

Lemma roster_items_come_from_rows_witness :
  registered "220"
  /\ exists tr,
       In tr (table_rows (B := Markup.bs4)
                (BeautifulSoup (Bs4 := Markup.bs4) Sample.online_page))
       /\ row_entry (U := ascii_digits) (B := Markup.bs4) Online tr
          = Some ("Alice", "220").
Proof.
  apply (roster_items_come_from_rows (U := ascii_digits) (B := Markup.bs4)
           Online Sample.online_page "Alice" "220").
  reflexivity.
Defined.

Lemma last_row_of_a_name_wins_witness :
  Dict.get (parse_page (U := ascii_digits) (B := Markup.bs4) Online Sample2.twice_page)
    "Alice" = Some "221".
Proof.
  apply (last_row_of_a_name_wins (U := ascii_digits) (B := Markup.bs4)
           Online Sample2.twice_page [Sample.alice_row] [] Sample2.alice_again_row
           "Alice" "221"); reflexivity.
Defined.

(* ================================================================== *)
(** * Order and repetition in merging and reconciling *)

Section MoreDictFacts.
Context {V : Type}.
Implicit Types (d other : dict V) (k : string) (v : V).

Lemma mem_In d k : Dict.mem d k = true <-> In k (Dict.keys d).
Proof.
  unfold Dict.mem. pose proof (get_None d k) as H.
  destruct (Dict.get d k).
  - split; [|reflexivity]. intros _.
    destruct (in_dec string_dec k (Dict.keys d)) as [Hin|Hnin]; [assumption|].
    apply H in Hnin. discriminate.
  - split; [discriminate|]. intros Hin. exfalso. now apply (proj1 H).
Qed.

Lemma mem_set d k v k' :
  Dict.mem (Dict.set d k v) k' = String.eqb k k' || Dict.mem d k'.
Proof.
  unfold Dict.mem. destruct (String.eqb k k') eqn:E.
  - apply String.eqb_eq in E. subst k'. now rewrite get_set_same.
  - apply String.eqb_neq in E. now rewrite get_set_other.
Qed.

Lemma set_same d k v : Dict.get d k = Some v -> Dict.set d k v = d.
Proof.
  induction d as [|[k0 v0] d IH]; simpl; [discriminate|].
  destruct (String.eqb k0 k) eqn:E.
  - now intros [= ->].
  - intros H. now rewrite IH.
Qed.

Lemma update_same d other :
  (forall k v, In (k, v) other -> Dict.get d k = Some v) ->
  Dict.update d other = d.
Proof.
  induction other as [|[k v] other IH]; intros H; [reflexivity|].
  rewrite update_cons, set_same by (apply H; now left).
  apply IH. intros k' v' Hin. apply H. now right.
Qed.

Lemma keys_update_order d other :
  Dict.wf other ->
  Dict.keys (Dict.update d other)
  = (Dict.keys d ++ filter (fun k => negb (Dict.mem d k)) (Dict.keys other))%list.
Proof.
  unfold Dict.wf. revert d.
  induction other as [|[k v] other IH]; intros d Hwf.
  - simpl. now rewrite app_nil_r.
  - inversion Hwf as [|? ? Hnotin Hwf']; subst.
    rewrite update_cons, IH by assumption. cbn [Dict.keys map fst filter].
    assert (Hfilter : filter (fun k' => negb (Dict.mem (Dict.set d k v) k'))
                        (Dict.keys other)
                      = filter (fun k' => negb (Dict.mem d k')) (Dict.keys other)).
    { apply filter_ext_in. intros k' Hin. rewrite mem_set.
      destruct (String.eqb k k') eqn:E; [|reflexivity].
      apply String.eqb_eq in E. subst k'. contradiction. }
    fold (Dict.keys other). rewrite Hfilter.
    destruct (Dict.mem d k) eqn:Hmem; cbn [negb].
    + apply mem_In in Hmem. now rewrite keys_set_present.
    + assert (Hfresh : ~ In k (Dict.keys d)).
      { intros Hin. apply mem_In in Hin. congruence. }
      rewrite set_fresh by assumption. unfold Dict.keys at 1.
      rewrite map_app. cbn [map fst]. now rewrite <- app_assoc.
Qed.
End MoreDictFacts.

(** X5.  Merging keeps the items of [a] in their places and puts the
    names that only [b] has behind them, in [b]'s order. *)
Theorem merge_dicts_order (a b : dict string) :
  Dict.wf b ->
  Dict.keys (merge_dicts a b)
  = (Dict.keys a ++ filter (fun k => negb (Dict.mem a k)) (Dict.keys b))%list.
Proof. intros Hb. unfold merge_dicts, Dict.copy. now apply keys_update_order. Qed.

(** X6.  Merging with the empty roster, on either side, and merging a
    roster with itself give the roster back. *)
Theorem merge_dicts_neutral (a : dict string) :
  Dict.wf a ->
  merge_dicts a [] = a /\ merge_dicts [] a = a /\ merge_dicts a a = a.
Proof.
  intros Ha. unfold merge_dicts, Dict.copy. split; [reflexivity|]. split.
  - now apply update_empty.
  - apply update_same. intros k v Hin. now apply In_get.
Qed.

(** X7.  Reconciling keeps the players of the previous state in their
    places and puts the new names behind them, in the roster's order. *)
Theorem reconcile_order (before : dict json) (current : dict string) :
  Dict.wf current ->
  Dict.keys (reconcile before current)
  = (Dict.keys before
     ++ filter (fun k => negb (Dict.mem before k)) (Dict.keys current))%list.
Proof.
  intros Hc. unfold reconcile, Dict.copy.
  rewrite keys_update_order by now apply wf_str_values.
  now rewrite keys_str_values.
Qed.

Lemma in_str_values (current : dict string) (k : string) (v : json) :
  In (k, v) (str_values current) -> exists code, v = JStr code /\ In (k, code) current.
Proof.
  unfold str_values. rewrite in_map_iff. intros [[k' code] [H Hin]].
  simpl in H. inversion H; subst. now exists code.
Qed.

Lemma get_reconcile_current (before : dict json) (current : dict string)
    (name code : string) :
  Dict.wf current -> In (name, code) current ->
  Dict.get (reconcile before current) name = Some (JStr code).
Proof.
  intros Hc Hin. unfold reconcile, Dict.copy.
  rewrite get_update, get_str_values by now apply wf_str_values.
  now rewrite (In_get current name code Hc Hin).
Qed.

Lemma reconcile_settled (after : dict json) (current : dict string) :
  (forall name code, In (name, code) current ->
     Dict.get after name = Some (JStr code)) ->
  reconcile after current = after.
Proof.
  intros H. unfold reconcile, Dict.copy.
  apply update_same. intros k v Hin.
  apply in_str_values in Hin as (code & -> & Hin). now apply H.
Qed.

(** X8.  Reconciling twice with the same roster is reconciling once. *)
Theorem reconcile_idempotent (before : dict json) (current : dict string) :
  Dict.wf current ->
  reconcile (reconcile before current) current = reconcile before current.
Proof.
  intros Hc. apply reconcile_settled. intros name code Hin.
  now apply get_reconcile_current.
Qed.

(* ================================================================== *)
(** * Looking for changes: errors and repetition *)

Lemma find_change_result (before : dict json) (name new_code : string)
    (changes : list change) :
  match Dict.get before name with
  | Some v =>
      if unhashable_truthy v
      then find_change before name new_code changes = Raise TypeError
      else exists changes', find_change before name new_code changes = Ok changes'
  | None => find_change before name new_code changes = Ok changes
  end.
Proof.
  unfold find_change. destruct (Dict.get before name) as [v|]; [|reflexivity].
  destruct v as [| b | n | repr | s | [|x l] | [|kv d]]; cbn.
  all: try (eexists; reflexivity).
  all: try reflexivity.
  all: repeat match goal with
         | |- context [if ?c then _ else _] => destruct c
         end; eexists; reflexivity.
Qed.

Lemma find_changes_from_raises (before : dict json) (items : list (string * string))
    (changes : list change) :
  (forall e, find_changes_from before items changes = Raise e -> e = TypeError)
  /\ ((exists e, find_changes_from before items changes = Raise e) <->
      exists name new_code v,
        In (name, new_code) items /\ Dict.get before name = Some v
        /\ unhashable_truthy v = true).
Proof.
  revert changes. induction items as [|[name new_code] items IH]; intros changes.
  - simpl. split; [discriminate|]. split.
    + intros [e H]. discriminate.
    + intros (? & ? & ? & [] & _).
  - cbn [find_changes_from].
    pose proof (find_change_result before name new_code changes) as Hstep.
    destruct (Dict.get before name) as [v|] eqn:Hget.
    + destruct (unhashable_truthy v) eqn:Hv.
      * rewrite Hstep. split; [now intros e [= <-]|]. split.
        -- intros _. exists name, new_code, v. split; [now left | auto].
        -- intros _. now exists TypeError.
      * destruct Hstep as [changes' ->]. destruct (IH changes') as [IH1 IH2].
        split; [exact IH1|]. rewrite IH2. split.
        -- intros (n & c & v' & Hin & Hg & Hu). exists n, c, v'. split; [now right|auto].
        -- intros (n & c & v' & [Heq | Hin] & Hg & Hu).
           ++ inversion Heq; subst. congruence.
           ++ exists n, c, v'. auto.
    + rewrite Hstep. destruct (IH changes) as [IH1 IH2].
      split; [exact IH1|]. rewrite IH2. split.
      * intros (n & c & v' & Hin & Hg & Hu). exists n, c, v'. split; [now right|auto].
      * intros (n & c & v' & [Heq | Hin] & Hg & Hu).
        -- inversion Heq; subst. congruence.
        -- exists n, c, v'. auto.
Qed.

(** X9.  Looking for changes raises nothing but [TypeError], and raises
    exactly when a player of the current roster has a prior value that is
    a list or dict with something in it. *)
Theorem find_changes_raises_on_unhashable (before : dict json) (current : dict string) :
  (forall e, find_changes before current = Raise e -> e = TypeError)
  /\ ((exists e, find_changes before current = Raise e) <->
      exists name new_code v,
        In (name, new_code) (Dict.items current) /\ Dict.get before name = Some v
        /\ unhashable_truthy v = true).
Proof. apply find_changes_from_raises. Qed.

Lemma find_changes_from_settled (before : dict json) (items : list (string * string))
    (changes : list change) :
  (forall name code, In (name, code) items ->
     Dict.get before name = Some (JStr code)) ->
  find_changes_from before items changes = Ok changes.
Proof.
  induction items as [|[name code] items IH]; intros H; [reflexivity|].
  cbn [find_changes_from]. unfold find_change.
  rewrite (H name code) by now left.
  cbn [ne_str]. rewrite String.eqb_refl, andb_false_r.
  apply IH. intros n c Hin. apply H. now right.
Qed.

(** X10.  Once a roster is reconciled into the players, the same roster
    shows no change against them. *)
Theorem no_change_after_reconcile (before : dict json) (current : dict string) :
  Dict.wf current ->
  find_changes (reconcile before current) current = Ok [].
Proof.
  intros Hc. unfold find_changes, Dict.items.
  apply find_changes_from_settled. intros name code Hin.
  now apply get_reconcile_current.
Qed.

Lemma merge_dicts_order_witness :
  Dict.keys (merge_dicts [("Alice", "220"); ("Bob", "120")]
                         [("Zed", "320"); ("Alice", "221")])
  = ["Alice"; "Bob"; "Zed"].
Proof.
  apply (merge_dicts_order [("Alice", "220"); ("Bob", "120")]
                           [("Zed", "320"); ("Alice", "221")]).
  apply distinct_wf. reflexivity.
Defined.

Lemma merge_dicts_neutral_witness :
  merge_dicts [("Alice", "220"); ("Bob", "120")] [] = [("Alice", "220"); ("Bob", "120")]
  /\ merge_dicts [] [("Alice", "220"); ("Bob", "120")] = [("Alice", "220"); ("Bob", "120")]
  /\ merge_dicts [("Alice", "220"); ("Bob", "120")] [("Alice", "220"); ("Bob", "120")]
     = [("Alice", "220"); ("Bob", "120")].
Proof.
  apply (merge_dicts_neutral [("Alice", "220"); ("Bob", "120")]).
  apply distinct_wf. reflexivity.
Defined.

Lemma reconcile_order_witness :
  Dict.keys (reconcile [("Carol", JStr "320"); ("Alice", JStr "220")]
                       [("Zed", "120"); ("Alice", "221")])
  = ["Carol"; "Alice"; "Zed"].
Proof.
  apply (reconcile_order [("Carol", JStr "320"); ("Alice", JStr "220")]
                         [("Zed", "120"); ("Alice", "221")]).
  apply distinct_wf. reflexivity.
Defined.

Lemma reconcile_idempotent_witness :
  reconcile (reconcile [("Carol", JStr "320"); ("Alice", JStr "220")]
                       [("Zed", "120"); ("Alice", "221")])
            [("Zed", "120"); ("Alice", "221")]
  = reconcile [("Carol", JStr "320"); ("Alice", JStr "220")]
              [("Zed", "120"); ("Alice", "221")].
Proof.
  apply (reconcile_idempotent [("Carol", JStr "320"); ("Alice", JStr "220")]
                              [("Zed", "120"); ("Alice", "221")]).
  apply distinct_wf. reflexivity.
Defined.

Lemma no_change_after_reconcile_witness :
  find_changes (reconcile [("Carol", JStr "320"); ("Alice", JStr "220")]
                          [("Zed", "120"); ("Alice", "221")])
               [("Zed", "120"); ("Alice", "221")]
  = Ok [].
Proof.
  apply (no_change_after_reconcile [("Carol", JStr "320"); ("Alice", JStr "220")]
                                   [("Zed", "120"); ("Alice", "221")]).
  apply distinct_wf. reflexivity.
Defined.

(* ================================================================== *)
(** * Fetching, posting and the whole run *)

Lemma webhook_posts_app (a b : list event) :
  webhook_posts (a ++ b) = (webhook_posts a ++ webhook_posts b)%list.
Proof. unfold webhook_posts. apply flat_map_app. Qed.

Lemma webhook_posts_stdout (msgs : list string) :
  webhook_posts (map Stdout msgs) = [].
Proof. induction msgs; simpl; auto. Qed.

Section PostFacts.
Context {O : Outside}.

Lemma post_changes_cons (url : string) (dry_run : bool)
    (name old_code new_code : string) (rest : list change) (w : world) :
  post_changes url dry_run ((name, old_code, new_code) :: rest) w
  = let msg := build_message (random_quote (quote_calls w)) name old_code new_code in
    match (if dry_run then emit (Stdout msg) else post_discord url msg)
            (mkWorld (state_file w) (sent w) (S (quote_calls w))) with
    | (Ok _, w') => post_changes url dry_run rest w'
    | (Raise e, w') => (Raise e, w')
    end.
Proof. reflexivity. Qed.

Lemma post_changes_nil (url : string) (dry_run : bool) (w : world) :
  post_changes url dry_run [] w = (Ok tt, w).
Proof. reflexivity. Qed.

Lemma post_events_app (url : string) (a b : list string) :
  post_events url (a ++ b) = (post_events url a ++ post_events url b)%list.
Proof. unfold post_events. apply flat_map_app. Qed.

Lemma webhook_posts_events (url : string) (msgs : list string) :
  (forall msg, In msg msgs -> post_response url msg <> None) ->
  webhook_posts (post_events url msgs) = map (pair url) msgs.
Proof.
  induction msgs as [|msg msgs IH]; intros H; [reflexivity|].
  change (msg :: msgs) with ([msg] ++ msgs)%list.
  rewrite post_events_app, webhook_posts_app, IH
    by (intros m Hin; apply H; now right).
  cbn [app map]. f_equal. unfold post_events. cbn [flat_map].
  destruct (post_response url msg) as [[|]|] eqn:E; try reflexivity.
  exfalso. apply (H msg); [now left | exact E].
Qed.

Lemma post_changes_dry (url : string) (changes : list change) (w : world) :
  post_changes url true changes w
  = (Ok tt, mkWorld (state_file w)
              (sent w ++ map Stdout (messages (quote_calls w) changes))
              (quote_calls w + List.length changes)).
Proof.
  revert w. induction changes as [|[[name old_code] new_code] changes IH]; intros w.
  - rewrite post_changes_nil. destruct w. cbn.
    now rewrite app_nil_r, Nat.add_0_r.
  - rewrite post_changes_cons. cbn zeta. unfold emit. cbn [state_file sent quote_calls].
    rewrite IH. cbn [state_file sent quote_calls messages map List.length].
    rewrite <- app_assoc. cbn [app]. now rewrite Nat.add_succ_r.
Qed.

Lemma post_changes_no_webhook (url : string) (changes : list change) (w : world) :
  str_truthy url = false ->
  post_changes url false changes w
  = (Ok tt, mkWorld (state_file w)
              (sent w ++ repeat StderrNoWebhook (List.length changes))
              (quote_calls w + List.length changes)).
Proof.
  intros Hurl. revert w.
  induction changes as [|[[name old_code] new_code] changes IH]; intros w.
  - rewrite post_changes_nil. destruct w. cbn.
    now rewrite app_nil_r, Nat.add_0_r.
  - rewrite post_changes_cons. cbn zeta. unfold post_discord. rewrite Hurl.
    cbn [negb]. unfold emit. cbn [state_file sent quote_calls].
    rewrite IH. cbn [state_file sent quote_calls repeat List.length].
    rewrite <- app_assoc. cbn [app]. now rewrite Nat.add_succ_r.
Qed.

Lemma post_discord_answered (url msg : string) (w : world) :
  str_truthy url = true -> post_response url msg <> None ->
  post_discord url msg w
  = (Ok tt, mkWorld (state_file w) (sent w ++ post_events url [msg]) (quote_calls w)).
Proof.
  intros Hurl Hans. unfold post_discord, post_events. rewrite Hurl. cbn [negb flat_map].
  destruct (post_response url msg) as [[|]|]; [| |contradiction].
  - reflexivity.
  - unfold bind, emit, ret. cbn. now rewrite <- app_assoc.
Qed.

Lemma post_changes_answered (url : string) (changes : list change) (w : world) :
  str_truthy url = true ->
  (forall msg, In msg (messages (quote_calls w) changes) ->
     post_response url msg <> None) ->
  post_changes url false changes w
  = (Ok tt, mkWorld (state_file w)
              (sent w ++ post_events url (messages (quote_calls w) changes))
              (quote_calls w + List.length changes)).
Proof.
  intros Hurl. revert w.
  induction changes as [|[[name old_code] new_code] changes IH]; intros w Hans.
  - rewrite post_changes_nil. destruct w. cbn.
    now rewrite app_nil_r, Nat.add_0_r.
  - rewrite post_changes_cons. cbn zeta.
    rewrite post_discord_answered; [|assumption|apply Hans; now left].
    cbn [state_file sent quote_calls]. rewrite IH.
    + cbn [state_file sent quote_calls messages List.length].
      rewrite <- app_assoc, <- post_events_app. cbn [app].
      now rewrite Nat.add_succ_r.
    + cbn [quote_calls]. intros msg Hin. apply Hans. now right.
Qed.

Lemma post_changes_unreachable (url : string) (changes : list change) (w : world)
    (done rest : list string) (msg : string) :
  str_truthy url = true ->
  messages (quote_calls w) changes = (done ++ msg :: rest)%list ->
  (forall m, In m done -> post_response url m <> None) ->
  post_response url msg = None ->
  post_changes url false changes w
  = (Raise RequestException,
     mkWorld (state_file w) (sent w ++ post_events url done)
       (quote_calls w + S (List.length done))).
Proof.
  intros Hurl. revert w done.
  induction changes as [|[[name old_code] new_code] changes IH];
    intros w done Hmsgs Hdone Hmsg.
  - destruct done; discriminate.
  - rewrite post_changes_cons. cbn zeta. cbn [messages] in Hmsgs.
    destruct done as [|d done]; cbn [app] in Hmsgs.
    + inversion Hmsgs as [[Hhead Htail]]. unfold post_discord. rewrite Hurl.
      cbn [negb]. rewrite Hhead, Hmsg. unfold raise. cbn.
      now rewrite app_nil_r, Nat.add_1_r.
    + inversion Hmsgs as [[Hhead Htail]].
      rewrite Hhead, post_discord_answered; [|assumption|apply Hdone; now left].
      cbn [state_file sent quote_calls].
      rewrite (IH _ done); cbn [state_file sent quote_calls].
      * rewrite <- app_assoc, <- post_events_app. cbn [app List.length].
        now rewrite !Nat.add_succ_r.
      * exact Htail.
      * intros m Hin. apply Hdone. now right.
      * exact Hmsg.
Qed.
End PostFacts.

Section MoreRunFacts.
Context {U : Unicode} {B : Bs4} {J : JsonLib} {O : Outside}.

Lemma fetch_pure (source : string) (w w0 : world) :
  fetch_current_total source w = (fst (fetch_current_total source w0), w).
Proof.
  unfold fetch_current_total, bind, http_get, ret, raise.
  destruct (str_in source ["online"; "both"]);
    destruct (str_in source ["ranking"; "both"]);
    try destruct (http_response ONLINE_URL);
    try destruct (http_response RANKING_URL); reflexivity.
Qed.

Lemma fetch_wf (source : string) (w : world) (current : dict string) :
  fst (fetch_current_total source w) = Ok current -> Dict.wf current.
Proof.
  assert (Hnil : Dict.wf (@nil (string * string))) by constructor.
  unfold fetch_current_total, bind, http_get, ret, raise.
  destruct (str_in source ["online"; "both"]);
    destruct (str_in source ["ranking"; "both"]);
    try destruct (http_response ONLINE_URL);
    try destruct (http_response RANKING_URL); cbn; intros H; inversion H; subst;
    auto using merge_dicts_wf.
Qed.

Lemma loaded_state (w : world) (state : json) :
  fst (load_state w) = Ok state ->
  load_state w = (Ok state, ensured w).
Proof. rewrite load_state_ensured. cbn. now intros [= ->]. Qed.

Lemma players_of_saved (loaded after : dict json) (source : string) :
  players_before (JObj (saved_state loaded after source)) = Ok after.
Proof.
  unfold players_before, state_get, Dict.get_default, saved_state.
  rewrite get_set_other by discriminate. now rewrite get_set_same.
Qed.

(** The run from the point where the changes are known. *)
Lemma run_from_changes (source : string) (dry_run : bool) (w : world)
    (loaded before : dict json) (current : dict string) (changes : list change) :
  fst (load_state w) = Ok (JObj loaded) ->
  players_before (JObj loaded) = Ok before ->
  fst (fetch_current_total source w) = Ok current ->
  find_changes before current = Ok changes ->
  run source dry_run w
  = match post_changes DISCORD_WEBHOOK_URL dry_run changes (ensured w) with
    | (Ok _, w') =>
        (Ok tt,
         mkWorld (Some (json_dumps
                          (JObj (saved_state loaded (reconcile before current) source))))
           (sent w') (quote_calls w'))
    | (Raise e, w') => (Raise e, w')
    end.
Proof.
  intros Hload Hbefore Hfetch Hchanges. unfold run.
  rewrite (bind_ok _ _ _ _ _ (loaded_state w _ Hload)).
  rewrite (bind_ok _ _ before (ensured w) (ensured w))
    by (unfold lift; now rewrite Hbefore).
  rewrite (bind_ok _ _ current (ensured w) (ensured w))
    by (rewrite (fetch_pure source (ensured w) w); now rewrite Hfetch).
  rewrite (bind_ok _ _ changes (ensured w) (ensured w))
    by (unfold lift; now rewrite Hchanges).
  unfold bind at 1.
  destruct (post_changes DISCORD_WEBHOOK_URL dry_run changes (ensured w))
    as [[[]|e] w']; reflexivity.
Qed.

(** The run up to the point where it looks for the changes. *)
Lemma run_to_changes (source : string) (dry_run : bool) (w : world)
    (loaded before : dict json) (current : dict string) (e : exn) :
  fst (load_state w) = Ok (JObj loaded) ->
  players_before (JObj loaded) = Ok before ->
  fst (fetch_current_total source w) = Ok current ->
  find_changes before current = Raise e ->
  run source dry_run w = (Raise e, ensured w).
Proof.
  intros Hload Hbefore Hfetch Hchanges. unfold run.
  rewrite (bind_ok _ _ _ _ _ (loaded_state w _ Hload)).
  rewrite (bind_ok _ _ before (ensured w) (ensured w))
    by (unfold lift; now rewrite Hbefore).
  rewrite (bind_ok _ _ current (ensured w) (ensured w))
    by (rewrite (fetch_pure source (ensured w) w); now rewrite Hfetch).
  now rewrite (bind_raise _ _ e (ensured w) (ensured w))
    by (unfold lift; now rewrite Hchanges).
Qed.
End MoreRunFacts.

Section StoreMore.
Context {J : JsonLib}.

(** X11.  Loading raises nothing; it writes the file only when there is
    none; and loading once more gives the same state and changes
    nothing. *)
Theorem load_state_settles (w : world) :
  exists state,
    load_state w = (Ok state, ensured w)
    /\ load_state (ensured w) = (Ok state, ensured w)
    /\ (state_file w <> None -> ensured w = w).
Proof.
  eexists. split; [apply load_state_ensured|]. split.
  - rewrite load_state_ensured. reflexivity.
  - destruct w as [[text|] out n]; [reflexivity | now intros []].
Qed.
End StoreMore.

Section RunTheorems.
Context {U : Unicode} {B : Bs4} {J : JsonLib} {O : Outside}.

(** X12.  When the state file holds a value that is no dict, the run
    ends with [AttributeError] at [state.get], before any page is fetched;
    nothing is sent and the file keeps its text. *)
Theorem run_needs_a_dict (source : string) (dry_run : bool) (w : world) (v : json) :
  fst (load_state w) = Ok v ->
  (forall d, v <> JObj d) ->
  run source dry_run w = (Raise AttributeError, ensured w).
Proof.
  intros Hload Hv. unfold run.
  rewrite (bind_ok _ _ _ _ _ (loaded_state w _ Hload)).
  apply bind_raise. unfold lift, players_before, state_get.
  destruct v; try reflexivity. exfalso. now apply (Hv d).
Qed.



(** X15.  A dry run posts nothing to the webhook, however it ends. *)
Theorem dry_run_posts_nothing (source : string) (w : world) :
  webhook_posts (sent (snd (run source true w))) = webhook_posts (sent w).
Proof.
  destruct (fst (load_state w)) as [state|e] eqn:Hload.
  2: { rewrite load_state_ensured in Hload. discriminate. }
  destruct (players_before state) as [before|e] eqn:Hbefore.
  2: { unfold run. rewrite (bind_ok _ _ _ _ _ (loaded_state w _ Hload)).
       rewrite (bind_raise _ _ e (ensured w) (ensured w))
         by (unfold lift; now rewrite Hbefore).
       reflexivity. }
  destruct (players_before_dict _ _ Hbefore) as [loaded ->].
  destruct (fst (fetch_current_total source w)) as [current|e] eqn:Hfetch.
  2: { unfold run. rewrite (bind_ok _ _ _ _ _ (loaded_state w _ Hload)).
       rewrite (bind_ok _ _ before (ensured w) (ensured w))
         by (unfold lift; now rewrite Hbefore).
       rewrite (bind_raise _ _ e (ensured w) (ensured w))
         by (rewrite (fetch_pure source (ensured w) w); now rewrite Hfetch).
       reflexivity. }
  destruct (find_changes before current) as [changes|e] eqn:Hchanges.
  - rewrite (run_from_changes source true w loaded before current changes)
      by assumption.
    rewrite post_changes_dry. cbn [snd sent ensured].
    now rewrite webhook_posts_app, webhook_posts_stdout, app_nil_r.
  - now rewrite (run_to_changes source true w loaded before current e).
Qed.



(** X18.  When the webhook cannot be reached for a message, the run ends
    there with the error of the request: the messages before it are
    posted, the later ones are not, and the state is not saved. *)
Theorem run_stops_at_unreachable_webhook (source : string) (w : world)
    (loaded before : dict json) (current : dict string) (changes : list change)
    (done rest : list string) (msg : string) :
  str_truthy DISCORD_WEBHOOK_URL = true ->
  fst (load_state w) = Ok (JObj loaded) ->
  players_before (JObj loaded) = Ok before ->
  fst (fetch_current_total source w) = Ok current ->
  find_changes before current = Ok changes ->
  messages (quote_calls w) changes = (done ++ msg :: rest)%list ->
  (forall m, In m done -> post_response DISCORD_WEBHOOK_URL m <> None) ->
  post_response DISCORD_WEBHOOK_URL msg = None ->
  run source false w
  = (Raise RequestException,
     mkWorld (Some (state_text w))
       (sent w ++ post_events DISCORD_WEBHOOK_URL done)
       (quote_calls w + S (List.length done))).
Proof.
  intros Hurl Hload Hbefore Hfetch Hchanges Hmsgs Hdone Hmsg.
  rewrite (run_from_changes source false w loaded before current changes)
    by assumption.
  now rewrite (post_changes_unreachable _ changes (ensured w) done rest msg).
Qed.

(** X19.  When a player of the current roster has a prior value that is
    a list or dict with something in it, the run ends with [TypeError]
    where it looks for the changes: nothing is sent and the state is not
    saved. *)
Theorem run_stops_on_unhashable (source : string) (dry_run : bool) (w : world)
    (loaded before : dict json) (current : dict string)
    (name new_code : string) (v : json) :
  fst (load_state w) = Ok (JObj loaded) ->
  players_before (JObj loaded) = Ok before ->
  fst (fetch_current_total source w) = Ok current ->
  In (name, new_code) (Dict.items current) ->
  Dict.get before name = Some v ->
  unhashable_truthy v = true ->
  run source dry_run w = (Raise TypeError, ensured w).
Proof.
  intros Hload Hbefore Hfetch Hin Hget Hv.
  destruct (find_changes_from_raises before (Dict.items current) []) as [Honly Hiff].
  destruct (proj2 Hiff) as [e He]; [now exists name, new_code, v|].
  rewrite (Honly e He) in He.
  now apply (run_to_changes source dry_run w loaded before current).
Qed.

(** X20.  With the source [both] and both pages fetched, the roster is
    the start page's merged with the ranking's: a player on both pages has
    the ranking's code. *)
Theorem both_sources_ranking_wins (w : world) (online ranking : string) :
  http_response ONLINE_URL = Some online ->
  http_response RANKING_URL = Some ranking ->
  fetch_current_total "both" w
  = (Ok (merge_dicts (parse_online online) (parse_ranking ranking)), w)
  /\ forall name,
       Dict.get (merge_dicts (parse_online online) (parse_ranking ranking)) name
       = match Dict.get (parse_ranking ranking) name with
         | Some code => Some code
         | None => Dict.get (parse_online online) name
         end.
Proof.
  intros Honline Hranking. split.
  - unfold fetch_current_total, bind, http_get, ret. cbn [str_in existsb String.eqb].
    cbn. rewrite Honline, Hranking. unfold merge_dicts at 2, Dict.copy.
    now rewrite update_empty by apply (parse_page_wf Online).
  - intros name. unfold merge_dicts, Dict.copy.
    apply get_update. apply (parse_page_wf Ranking).
Qed.
End RunTheorems.

(* ================================================================== *)
(** * A second run *)

Lemma NoDup_distinct (l : list string) : NoDup l -> distinct l = true.
Proof.
  induction 1 as [|k l Hnotin _ IH]; [reflexivity|].
  cbn [distinct]. rewrite IH, andb_true_r. apply negb_true_iff.
  destruct (str_in k l) eqn:E; [|reflexivity].
  apply str_in_In in E. contradiction.
Qed.

Lemma plain_dict (d : dict json) :
  Json.plain (JObj d) = true
  <-> Dict.wf d /\ forall k v, In (k, v) d -> Json.plain v = true.
Proof.
  cbn [Json.plain]. rewrite andb_true_iff, forallb_forall. split.
  - intros [Hkeys Hvals]. split; [now apply distinct_NoDup|].
    intros k v Hin. apply (Hvals (k, v) Hin).
  - intros [Hwf Hvals]. split; [now apply NoDup_distinct|].
    intros [k v] Hin. now apply (Hvals k v).
Qed.

Lemma in_set {V} (d : dict V) (k : string) (v : V) (kv : string * V) :
  In kv (Dict.set d k v) -> kv = (k, v) \/ In kv d.
Proof.
  induction d as [|[k0 v0] d IH]; simpl.
  - intros [H|[]]. left. now symmetry.
  - destruct (String.eqb k0 k) eqn:E; simpl.
    + apply String.eqb_eq in E. subst k0.
      intros [H|H]; [left; now symmetry | right; now right].
    + intros [H|H]; [right; now left|].
      destruct (IH H) as [Heq|Hd]; [now left | right; now right].
Qed.

Lemma in_update {V} (d other : dict V) (kv : string * V) :
  In kv (Dict.update d other) -> In kv d \/ In kv other.
Proof.
  revert d. induction other as [|[k v] other IH]; intros d H.
  - now left.
  - rewrite update_cons in H. destruct (IH _ H) as [Hset | Hother].
    + destruct (in_set _ _ _ _ Hset) as [-> | Hd]; [right; now left | now left].
    + right. now right.
Qed.

Lemma plain_set (d : dict json) (k : string) (v : json) :
  Json.plain (JObj d) = true -> Json.plain v = true ->
  Json.plain (JObj (Dict.set d k v)) = true.
Proof.
  rewrite !plain_dict. intros [Hwf Hvals] Hv. split; [now apply wf_set|].
  intros k' v' Hin. destruct (in_set _ _ _ _ Hin) as [Heq | Hd].
  - now inversion Heq.
  - now apply (Hvals k' v').
Qed.

Lemma plain_reconcile (before : dict json) (current : dict string) :
  Json.plain (JObj before) = true ->
  Json.plain (JObj (reconcile before current)) = true.
Proof.
  rewrite !plain_dict. intros [Hwf Hvals]. unfold reconcile, Dict.copy.
  split; [now apply wf_update|].
  intros k v Hin. destruct (in_update _ _ _ Hin) as [Hd | Hc].
  - now apply (Hvals k v).
  - now apply in_str_values in Hc as (code & -> & _).
Qed.

Lemma plain_players (loaded before : dict json) :
  Json.plain (JObj loaded) = true ->
  players_before (JObj loaded) = Ok before ->
  Json.plain (JObj before) = true.
Proof.
  intros Hplain. unfold players_before, state_get, Dict.get_default.
  destruct (Dict.get loaded "players") as [v|] eqn:Hget.
  - apply get_Some_In in Hget. apply plain_dict in Hplain as [_ Hvals].
    pose proof (Hvals _ _ Hget) as Hv.
    destruct v; intros [= <-]; try reflexivity. exact Hv.
  - now intros [= <-].
Qed.

Lemma saved_state_again (loaded after : dict json) (source : string) :
  saved_state (saved_state loaded after source) after source
  = saved_state loaded after source.
Proof.
  unfold saved_state.
  rewrite (set_same _ "players" (JObj after)).
  - apply set_same. apply get_set_same.
  - rewrite get_set_other by discriminate. apply get_set_same.
Qed.

Section SecondRun.
Context {U : Unicode} {B : Bs4} {O : Outside}.


(** X22.  Every code of the registry can be read from an icon path: a
    path with the code between the first slash and [.jpg] yields it. *)
Theorem registered_codes_can_be_read (code pre post : string) :
  ascii_digits_count ->
  registered code ->
  ~ In "/"%char (list_ascii_of_string pre) ->
  extract_job_code_from_img_src (pre ++ "/" ++ code ++ ".jpg" ++ post) = Some code.
Proof.
  intros Hlaw Hreg Hpre. apply mem_In in Hreg.
  unfold extract_job_code_from_img_src.
  assert (Hm : match_job_code_here ("/" ++ code ++ ".jpg" ++ post) = Some code).
  { cbn in Hreg.
    repeat (destruct Hreg as [<- | Hreg];
            [now apply (match_here_digits _ _ _ post Hlaw)|]).
    contradiction. }
  now rewrite (search_first_slash pre _ _ Hpre Hm).
Qed.
End SecondRun.

(* ================================================================== *)
(** * The run theorems on the sample surroundings *)

Lemma noted_loads :
  fst (load_state (J := Json.lib) Sample.noted) = Ok (JObj Sample.noted_state).
Proof. vm_compute. reflexivity. Qed.

Lemma noted_fetch :
  fst (fetch_current_total (U := ascii_digits) (B := Markup.bs4)
         (O := Sample.online_only) "online" Sample.noted)
  = Ok [("Alice", "220")].
Proof. vm_compute. reflexivity. Qed.

Lemma run_needs_a_dict_witness :
  Sample.run_in Sample.offline "online" false Sample2.list_file
  = (Raise AttributeError, Sample2.list_file).
Proof.
  apply (run_needs_a_dict (U := ascii_digits) (B := Markup.bs4) (J := Json.lib)
           (O := Sample.offline) "online" false Sample2.list_file (JArr [])).
  - vm_compute. reflexivity.
  - intros d. discriminate.
Defined.





Lemma run_stops_at_unreachable_webhook_witness :
  Sample.run_in Sample2.unreachable "online" false Sample.noted
  = (Raise RequestException,
     mkWorld (Some (state_text Sample.noted)) [] 1).
Proof.
  apply (run_stops_at_unreachable_webhook (U := ascii_digits) (B := Markup.bs4)
           (J := Json.lib) (O := Sample2.unreachable) "online" Sample.noted
           Sample.noted_state [("Alice", JStr "221")] [("Alice", "220")]
           [("Alice", "221", "220")] [] []
           "Alice rebirthed from Mercenary to Templar.").
  - reflexivity.
  - exact noted_loads.
  - reflexivity.
  - vm_compute. reflexivity.
  - reflexivity.
  - reflexivity.
  - intros m [].
  - reflexivity.
Defined.

Lemma run_stops_on_unhashable_witness :
  Sample.run_in Sample.online_only "online" false Sample2.nested
  = (Raise TypeError, Sample2.nested).
Proof.
  apply (run_stops_on_unhashable (U := ascii_digits) (B := Markup.bs4) (J := Json.lib)
           (O := Sample.online_only) "online" false Sample2.nested
           Sample2.nested_state [("Alice", JArr [JStr "221"])] [("Alice", "220")]
           "Alice" "220" (JArr [JStr "221"])).
  - vm_compute. reflexivity.
  - reflexivity.
  - vm_compute. reflexivity.
  - now left.
  - reflexivity.
  - reflexivity.
Defined.

Lemma both_sources_ranking_wins_witness :
  fetch_current_total (U := ascii_digits) (B := Markup.bs4) (O := Sample2.both_pages)
    "both" Sample.fresh
  = (Ok (merge_dicts
           (parse_online (U := ascii_digits) (B := Markup.bs4) Sample.online_page)
           (parse_ranking (U := ascii_digits) (B := Markup.bs4) Sample2.ranking_page)),
     Sample.fresh)
  /\ forall name,
       Dict.get (merge_dicts
                   (parse_online (U := ascii_digits) (B := Markup.bs4) Sample.online_page)
                   (parse_ranking (U := ascii_digits) (B := Markup.bs4)
                      Sample2.ranking_page)) name
       = match Dict.get (parse_ranking (U := ascii_digits) (B := Markup.bs4)
                           Sample2.ranking_page) name with
         | Some code => Some code
         | None => Dict.get (parse_online (U := ascii_digits) (B := Markup.bs4)
                               Sample.online_page) name
         end.
Proof.
  apply (both_sources_ranking_wins (U := ascii_digits) (B := Markup.bs4)
           (O := Sample2.both_pages) Sample.fresh Sample.online_page
           Sample2.ranking_page); reflexivity.
Defined.


Lemma registered_codes_can_be_read_witness :
  extract_job_code_from_img_src (U := ascii_digits)
    ("job" ++ "/" ++ "324" ++ ".jpg" ++ "") = Some "324".
Proof.
  apply (registered_codes_can_be_read (U := ascii_digits) "324" "job" ""
           ascii_digits_counted).
  - reflexivity.
  - simpl. intuition discriminate.
Defined.

Example ranking_overrides_online :
  fst (fetch_current_total (U := ascii_digits) (B := Markup.bs4)
         (O := Sample2.both_pages) "both" Sample.fresh)
  = Ok [("Alice", "221"); ("Zed", "120")].
Proof. vm_compute. reflexivity. Qed.

(* ================================================================== *)
(** * The roster as the dict of the rows' items *)

Section EntriesFacts.
Context {U : Unicode} {B : Bs4}.

Lemma rows_update (l : layout) (rows : list tag) (current : dict string) :
  fold_left (parse_row l) rows current = Dict.update current (row_entries l rows).
Proof.
  revert current. induction rows as [|tr rows IH]; intros current; [reflexivity|].
  cbn [fold_left row_entries flat_map]. rewrite IH, parse_row_entry.
  fold (row_entries l rows).
  destruct (row_entry l tr) as [[name code]|]; reflexivity.
Qed.

(** X23.  The roster read from a page is the dict that the rows' items
    build, assigned in the order of the rows; when no two rows name the
    same player it is the list of these items. *)
Theorem roster_is_built_from_rows (l : layout) (html : string) :
  parse_page l html
  = Dict.update [] (row_entries l (table_rows (BeautifulSoup html)))
  /\ (Dict.wf (row_entries l (table_rows (BeautifulSoup html))) ->
      parse_page l html = row_entries l (table_rows (BeautifulSoup html))).
Proof.
  rewrite parse_page_rows, rows_update. split; [reflexivity|].
  apply update_empty.
Qed.
End EntriesFacts.

(* ================================================================== *)
(** * Changes against prior values of any kind *)

Lemma find_change_from (before : dict json) (name new_code : string)
    (changes changes' : list change) :
  find_change before name new_code changes = Ok changes' ->
  changes' = (changes ++ change_from before (name, new_code))%list.
Proof.
  unfold find_change, change_from. cbn [fst snd].
  destruct (Dict.get before name) as [v|]; [|intros [= <-]; now rewrite app_nil_r].
  destruct v as [| b | n | repr | s | [|x l] | [|kv d]];
    cbn [truthy ne_str hashable negb andb].
  all: try discriminate.
  all: try (intros [= <-]; now rewrite app_nil_r).
  - destruct b; cbn; intros [= <-]; now rewrite app_nil_r.
  - destruct (negb (Z.eqb n 0)); cbn; intros [= <-]; now rewrite app_nil_r.
  - destruct (negb _); cbn; intros [= <-]; now rewrite app_nil_r.
  - assert (Hempty : str_truthy s = false -> Dict.mem JOB_MAP s = false).
    { destruct s; [reflexivity | discriminate]. }
    destruct (str_truthy s); destruct (negb (String.eqb s new_code));
      destruct (Dict.mem JOB_MAP s); destruct (Dict.mem JOB_MAP new_code);
      cbn [andb]; intros [= <-]; rewrite ?app_nil_r; try reflexivity.
    all: specialize (Hempty eq_refl); discriminate.
Qed.

Lemma find_changes_from_flat (before : dict json) (items : list (string * string))
    (changes changes' : list change) :
  find_changes_from before items changes = Ok changes' ->
  changes' = (changes ++ flat_map (change_from before) items)%list.
Proof.
  revert changes. induction items as [|[name new_code] items IH]; intros changes.
  - cbn. intros [= <-]. now rewrite app_nil_r.
  - cbn [find_changes_from flat_map].
    destruct (find_change before name new_code changes) as [changes1|e] eqn:E;
      [|discriminate].
    apply find_change_from in E. subst changes1.
    intros H. apply IH in H. now rewrite <- app_assoc in H.
Qed.

Lemma in_change_from (before : dict json) (item : string * string)
    (name old new : string) :
  In (name, old, new) (change_from before item) <->
  item = (name, new) /\ Dict.get before name = Some (JStr old)
  /\ old <> new /\ registered old /\ registered new.
Proof.
  unfold change_from, registered. destruct item as [n c]. cbn [fst snd]. split.
  - destruct (Dict.get before n) as [[| | | | s | |]|] eqn:Hget; try (intros []).
    destruct (negb (String.eqb s c)) eqn:Hne; cbn [andb]; [|intros []].
    destruct (Dict.mem JOB_MAP s) eqn:Hs; cbn [andb]; [|intros []].
    destruct (Dict.mem JOB_MAP c) eqn:Hc; [|intros []].
    intros [Heq|[]]. inversion Heq; subst.
    apply negb_true_iff, String.eqb_neq in Hne. auto.
  - intros (Heq & Hget & Hne & Hold & Hnew). inversion Heq; subst.
    rewrite Hget, Hold, Hnew. apply String.eqb_neq in Hne. rewrite Hne.
    now left.
Qed.

(** X24.  With prior values of any kind, the changes found are those of
    the items whose prior value is a registered [str] other than the
    registered new code, in the order of the items; a number, a boolean,
    [null] or an empty list or dict as prior value gives no change. *)
Theorem changes_need_prior_strings (before : dict json) (current : dict string)
    (changes : list change) :
  Dict.wf current ->
  find_changes before current = Ok changes ->
  changes = flat_map (change_from before) (Dict.items current)
  /\ forall name old new,
       In (name, old, new) changes <->
       Dict.get current name = Some new /\ Dict.get before name = Some (JStr old)
       /\ old <> new /\ registered old /\ registered new.
Proof.
  intros Hwf Hfound. apply find_changes_from_flat in Hfound. cbn [app] in Hfound.
  split; [exact Hfound|]. intros name old new. subst changes.
  rewrite in_flat_map. split.
  - intros [item [Hin Hc]]. apply in_change_from in Hc as (-> & Hrest).
    split; [now apply In_get | exact Hrest].
  - intros (Hcur & Hrest). exists (name, new).
    split; [now apply get_Some_In|]. apply in_change_from. now split.
Qed.

Lemma changes_need_prior_strings_witness :
  [("Alice", "221", "220")]
  = flat_map (change_from [("Alice", JStr "221"); ("Bob", JInt 120); ("Zed", JNull)])
      (Dict.items [("Alice", "220"); ("Bob", "121"); ("Zed", "320")])
  /\ forall name old new,
       In (name, old, new) [("Alice", "221", "220")] <->
       Dict.get [("Alice", "220"); ("Bob", "121"); ("Zed", "320")] name = Some new
       /\ Dict.get [("Alice", JStr "221"); ("Bob", JInt 120); ("Zed", JNull)] name
          = Some (JStr old)
       /\ old <> new /\ registered old /\ registered new.
Proof.
  apply (changes_need_prior_strings
           [("Alice", JStr "221"); ("Bob", JInt 120); ("Zed", JNull)]
           [("Alice", "220"); ("Bob", "121"); ("Zed", "320")]
           [("Alice", "221", "220")]).
  - apply distinct_wf. reflexivity.
  - reflexivity.
Defined.

(* ================================================================== *)
(** * The state file of a run that fails *)

Section FailedRun.
Context {U : Unicode} {B : Bs4} {J : JsonLib} {O : Outside}.

Lemma post_discord_file (url msg : string) (w : world) :
  state_file (snd (post_discord url msg w)) = state_file w.
Proof.
  unfold post_discord. destruct (negb (str_truthy url)); [reflexivity|].
  destruct (post_response url msg) as [[|]|]; reflexivity.
Qed.

Lemma post_changes_file (url : string) (dry_run : bool) (changes : list change)
    (w : world) :
  state_file (snd (post_changes url dry_run changes w)) = state_file w.
Proof.
  revert w. induction changes as [|[[name old_code] new_code] changes IH]; intros w.
  - reflexivity.
  - rewrite post_changes_cons. cbn zeta.
    set (msg := build_message _ _ _ _).
    set (w0 := mkWorld _ _ _).
    assert (Hstep : state_file
                      (snd ((if dry_run then emit (Stdout msg)
                             else post_discord url msg) w0)) = state_file w).
    { destruct dry_run; [reflexivity|]. now rewrite post_discord_file. }
    destruct ((if dry_run then emit (Stdout msg) else post_discord url msg) w0)
      as [[[]|e] w1]; cbn [snd] in Hstep.
    + now rewrite IH.
    + exact Hstep.
Qed.

End FailedRun.

